(** * Near-space atmospheric analysis: a shallow embedding

    The development follows the two Python modules of the repository:

    - [process_near_space.py]: the fixed-width sounding parser, the
      potential temperature, the monthly and seasonal aggregation and the
      merge of the three monthly sources;
    - [atmospheric_analysis.py]: correlations, episode flags, dispersion
      classes, aerosol source attribution and the insights over the
      merged table.

    Python floats are IEEE binary64 numbers, modelled by the primitive
    floats of the kernel; a missing value is NaN, as in pandas.  Python
    exceptions are explicit in the [result] type.  Library functions whose
    code is outside the repository (the C library's [pow], scipy's
    [pearsonr], pandas' [median], [quantile] and [mean], Python's [round]
    to decimals and its formatting of floats) are section variables.
    Text is ASCII; the one Greek letter of the source is written in
    UTF-8. *)

From Stdlib Require Import ZArith List String Ascii Bool Lia Floats.
From Stdlib Require Import DecimalString Sorting.Sorted.
From Stdlib Require Import Sorting.Permutation.
From Stdlib Require DecimalPos.
Import ListNotations.

Set Warnings "-inexact-float".

Open Scope string_scope.
Open Scope Z_scope.

(** * Part I: the model *)

(** ** Python values and built-ins *)

Module Py.

Inductive exn : Set :=
| ValueError
| ZeroDivisionError
| OverflowError
| KeyError
| ComplexResult.

Inductive result (A : Type) : Type :=
| Ok (a : A)
| Raise (e : exn).

Arguments Ok {A} a.
Arguments Raise {A} e.

Definition bind {A B : Type} (m : result A) (k : A -> result B) : result B :=
  match m with
  | Ok a => k a
  | Raise e => Raise e
  end.

Notation "x <- m ;; k" := (bind m (fun x => k))
  (at level 61, m at next level, right associativity).

(** [str.isspace] on the ASCII range: tab to carriage return, the four
    separators 28..31 and the space. *)
Definition isspace (c : ascii) : bool :=
  let n := Z.of_N (N_of_ascii c) in
  ((9 <=? n) && (n <=? 13)) || ((28 <=? n) && (n <=? 32)).

Fixpoint lstrip (cs : list ascii) : list ascii :=
  match cs with
  | c :: rest => if isspace c then lstrip rest else cs
  | [] => []
  end.

(** [str.strip()] *)
Definition strip (s : string) : string :=
  string_of_list_ascii
    (rev (lstrip (rev (lstrip (list_ascii_of_string s))))).

Definition digit_of (c : ascii) : option Z :=
  let n := Z.of_N (N_of_ascii c) in
  if (48 <=? n) && (n <=? 57) then Some (n - 48) else None.

Definition is_underscore (c : ascii) : bool :=
  Z.of_N (N_of_ascii c) =? 95.

(** The digits of an [int] literal: at least one digit, single underscores
    only between digits.  [seen] tells whether the previous character was a
    digit. *)
Fixpoint int_digits (acc : Z) (seen : bool) (cs : list ascii) : option Z :=
  match cs with
  | [] => if seen then Some acc else None
  | c :: rest =>
      match digit_of c with
      | Some d => int_digits (10 * acc + d) true rest
      | None =>
          if is_underscore c && seen then int_digits acc false rest else None
      end
  end.

(** The value of an [int] literal: an optional sign, digits. *)
Definition int_literal (body : list ascii) : option Z :=
  match body with
  | "-"%char :: rest => option_map Z.opp (int_digits 0 false rest)
  | "+"%char :: rest => int_digits 0 false rest
  | _ => int_digits 0 false body
  end.

Definition is_digit (c : ascii) : bool :=
  match digit_of c with
  | Some _ => true
  | None => false
  end.

(** The number of digits CPython accepts in the text of an integer
    ([sys.int_info.default_max_str_digits], from Python 3.11 on): leading
    zeros count, the sign and the underscores do not. *)
Definition int_max_str_digits : Z := 4300.

(** [int(s)] for a string: surrounding blanks, an optional sign, digits,
    and no more digits than the limit; every refusal is a [ValueError]. *)
Definition int (s : string) : result Z :=
  let body := list_ascii_of_string (strip s) in
  match int_literal body with
  | Some z =>
      if int_max_str_digits <? Z.of_nat (List.length (filter is_digit body))
      then Raise ValueError
      else Ok z
  | None => Raise ValueError
  end.

(** [s[i:j]] for [0 <= i <= j] *)
Definition slice (s : string) (i j : nat) : string := substring i (j - i) s.

(** [str(n)], [f"{n:02d}"] and [f"{n:04d}"] for an integer *)
Definition str_int (z : Z) : string := NilZero.string_of_int (Z.to_int z).

Definition str_int02 (z : Z) : string :=
  if (0 <=? z) && (z <? 10) then "0" ++ str_int z else str_int z.

Definition str_int04 (z : Z) : string :=
  if (0 <=? z) && (z <? 10) then "000" ++ str_int z
  else if (0 <=? z) && (z <? 100) then "00" ++ str_int z
  else if (0 <=? z) && (z <? 1000) then "0" ++ str_int z
  else str_int z.

(** [float(n)] for an integer, and the conversion of the integer in
    [n / x]: rounded to nearest even, with [OverflowError] where the
    rounding leaves the finite floats (from 2^1024 - 2^970 on). *)
Definition float_of_int (z : Z) : result float :=
  let x := SF2Prim (binary_normalize prec emax z 0 false) in
  if PrimFloat.is_infinity x then Raise OverflowError else Ok x.

(** [a / b] on floats *)
Definition truediv (a b : float) : result float :=
  if PrimFloat.eqb b 0%float then Raise ZeroDivisionError
  else Ok (PrimFloat.div a b).

(** [math.isnan], [pd.isna] on a float *)
Definition isnan (x : float) : bool := PrimFloat.is_nan x.

(** Nearest integer of [n / d] for [d > 0], ties to the even one. *)
Definition round_half_even (n d : Z) : Z :=
  let q := n / d in
  let r := n mod d in
  match (2 * r) ?= d with
  | Lt => q
  | Gt => q + 1
  | Eq => if Z.even q then q else q + 1
  end.

(** [round(x)] for a float, an integer in Python 3 *)
Definition round (x : float) : result Z :=
  match Prim2SF x with
  | S754_zero _ => Ok 0
  | S754_finite s m e =>
      let a := match e with
               | Zneg k => round_half_even (Zpos m) (2 ^ Zpos k)
               | _ => Zpos m * 2 ^ e
               end in
      Ok (if s then - a else a)
  | S754_infinity _ => Raise OverflowError
  | S754_nan => Raise ValueError
  end.

Section Pow.

(** The C library's [pow] *)
Variable libm_pow : float -> float -> float.

(** [iv ** iw] on floats, as [float_pow] of CPython decides it for an
    exponent [iw] that is finite, positive and not an integer (the only
    exponent of this program is 0.2854): the special bases are settled
    before the C library is called, a negative finite base leaves the
    floats for the complex numbers, and an infinite result of [pow] is an
    [OverflowError]. *)
Definition pow_fractional (iv iw : float) : result float :=
  if PrimFloat.is_nan iv then Ok iv
  else if PrimFloat.is_infinity iv then Ok infinity
  else if PrimFloat.eqb iv 0%float then Ok 0%float
  else if PrimFloat.ltb iv 0%float then Raise ComplexResult
  else if PrimFloat.eqb iv 1%float then Ok 1%float
  else
    let ix := libm_pow iv iw in
    if PrimFloat.is_infinity ix then Raise OverflowError else Ok ix.

End Pow.

End Py.

Import Py.

(** ** The pandas operations the program uses *)

Module Pandas.

Section GroupBy.

Context {A K : Type}.
Variable key : A -> K.
Variables eqb leb : K -> K -> bool.

(** The group keys are kept distinct and ascending. *)
Fixpoint insert_key (k : K) (ks : list K) : list K :=
  match ks with
  | [] => [k]
  | k' :: rest =>
      if eqb k k' then ks
      else if leb k k' then k :: ks
      else k' :: insert_key k rest
  end.

Definition group_keys (rows : list A) : list K :=
  fold_right (fun r ks => insert_key (key r) ks) [] rows.

(** [df.groupby(key)]: one group per key, keys ascending, the rows of a
    group in the order of the frame. *)
Definition groupby (rows : list A) : list (K * list A) :=
  map (fun k => (k, filter (fun r => eqb (key r) k) rows)) (group_keys rows).

(** [df.sort_values(key)] *)
Fixpoint insert_row (x : A) (l : list A) : list A :=
  match l with
  | [] => [x]
  | y :: rest =>
      if leb (key x) (key y) then x :: l else y :: insert_row x rest
  end.

Definition sort_values (rows : list A) : list A :=
  fold_right insert_row [] rows.

End GroupBy.

(** [left.merge(right, on=key, how="inner")]: the pairs with equal keys,
    in the order of the left keys. *)
Definition merge_inner {L R K : Type} (keyL : L -> K) (keyR : R -> K)
  (eqb : K -> K -> bool) (left : list L) (right : list R) : list (L * R) :=
  flat_map
    (fun l => map (pair l) (filter (fun r => eqb (keyL l) (keyR r)) right))
    left.

(** [pd.crosstab(index, columns)] over rows that carry both labels: the
    distinct labels ascending, and the count of every cell. *)
Record Crosstab : Set := mkCrosstab
  { ct_index : list string;
    ct_columns : list string;
    ct_counts : list (list Z) }.

Definition crosstab (labels : list (string * string)) : Crosstab :=
  let index := group_keys fst String.eqb String.leb labels in
  let columns := group_keys snd String.eqb String.leb labels in
  mkCrosstab index columns
    (map (fun i =>
            map (fun c =>
                   Z.of_nat
                     (List.length
                        (filter (fun ic => (fst ic =? i)%string
                                           && (snd ic =? c)%string)
                           labels)))
              columns)
       index).

End Pandas.

Import Pandas.

(** ** process_near_space.py *)

Module NearSpace.

(** *** Field decoding *)

Definition _parse_int (segment : string) : result (option Z) :=
  let segment := strip segment in
  if ((segment =? "") || (segment =? "-9999") || (segment =? "-8888"))%string
  then Ok None
  else z <- int segment ;; Ok (Some z).

Definition _parse_float (segment : string) (scale : float)
  : result (option float) :=
  value <- _parse_int segment ;;
  match value with
  | None => Ok None
  | Some v =>
      x <- float_of_int v ;;
      q <- truediv x scale ;;
      Ok (Some q)
  end.

(** Truth value of an optional integer: [None] and [0] are false. *)
Definition truthy (v : option Z) : bool :=
  match v with
  | Some z => negb (z =? 0)
  | None => false
  end.

(** *** Potential temperature *)

Section PotentialTemperature.

Variable libm_pow : float -> float -> float.

Definition _potential_temperature (temp_c pressure_hpa : float)
  : result float :=
  let temp_k := (temp_c + 273.15)%float in
  let exponent := 0.2854%float in
  ratio <- truediv 1000%float pressure_hpa ;;
  w <- pow_fractional libm_pow ratio exponent ;;
  Ok (temp_k * w)%float.

End PotentialTemperature.

(** *** Timestamps and monthly periods *)

Record Timestamp : Set := mkTimestamp
  { ts_year : Z; ts_month : Z; ts_day : Z; ts_hour : Z }.

Definition is_leap (y : Z) : bool :=
  (y mod 4 =? 0) && (negb (y mod 100 =? 0) || (y mod 400 =? 0)).

Definition days_in_month (y m : Z) : Z :=
  if (m =? 2) then (if is_leap y then 29 else 28)
  else if (m =? 4) || (m =? 6) || (m =? 9) || (m =? 11) then 30
  else 31.

(** [pd.Timestamp(year=..., month=..., day=..., hour=...)]: the fields go
    through [datetime], which raises [ValueError] outside the calendar
    (years 1 to 9999; pandas versions with nanosecond timestamps only
    refuse more years, with a subclass of [ValueError]). *)
Definition pd_Timestamp (year month day hour : Z) : result Timestamp :=
  if (1 <=? year) && (year <=? 9999)
     && (1 <=? month) && (month <=? 12)
     && (1 <=? day) && (day <=? days_in_month year month)
     && (0 <=? hour) && (hour <=? 23)
  then Ok (mkTimestamp year month day hour)
  else Raise ValueError.

(** A monthly [pd.Period] *)
Record Period : Set := mkPeriod { p_year : Z; p_month : Z }.

Definition to_period (ts : Timestamp) : Period :=
  mkPeriod (ts_year ts) (ts_month ts).

Definition ordinal (p : Period) : Z := p_year p * 12 + (p_month p - 1).

Definition period_eqb (p q : Period) : bool :=
  (p_year p =? p_year q) && (p_month p =? p_month q).

Definition period_leb (p q : Period) : bool := ordinal p <=? ordinal q.

(** [str(period)]: "YYYY-MM", the year with four digits ("0999-12" for
    December 999) *)
Definition period_str (p : Period) : string :=
  str_int04 (p_year p) ++ "-" ++ str_int02 (p_month p).

(** The months of the calendar of [pd.Timestamp]: 0001-01 to 9999-12. *)
Definition calendar_month (p : Period) : bool :=
  (1 <=? p_year p) && (p_year p <=? 9999)
  && (1 <=? p_month p) && (p_month p <=? 12).

(** The [i]-th of these months, counted from 0001-01. *)
Definition month_of_index (i : Z) : Period :=
  mkPeriod (1 + i / 12) (i mod 12 + 1).

(** The [n] integers from [start] on. *)
Fixpoint zrange (n : nat) (start : Z) : list Z :=
  match n with
  | O => []
  | S n' => start :: zrange n' (start + 1)
  end.

(** The floor of the merged table, 2010-01. *)
Definition floor_month : Period := mkPeriod 2010 1.

(** Two checks on the [i]-th month: its text is not above the text of the
    next month, and it passes the text comparison of [.query] exactly
    when it is not before the floor month. *)
Definition step_ordered (i : Z) : bool :=
  String.leb (period_str (month_of_index i))
    (period_str (month_of_index (i + 1))).

Definition floor_agrees (i : Z) : bool :=
  Bool.eqb (String.leb "2010-01" (period_str (month_of_index i)))
    (period_leb floor_month (month_of_index i)).

(** *** The sounding parser *)

Record Level : Set := mkLevel
  { pressure_hpa : float; gph : float; temp_c : float; rh : float }.

(** [level_store]: a dictionary from the rounded pressure to the level *)
Definition level_store := list (Z * Level).

Fixpoint store_get (k : Z) (s : level_store) : option Level :=
  match s with
  | [] => None
  | (k', v) :: rest => if k =? k' then Some v else store_get k rest
  end.

Definition store_set (k : Z) (v : Level) (s : level_store) : level_store :=
  (k, v) :: filter (fun kv => negb (fst kv =? k)) s.

Record Sounding : Set := mkSounding
  { datetime : Timestamp;
    theta_gradient_700_925_K : float;
    theta_850_K : float;
    relative_humidity_850_pct : float;
    height_925_m : float;
    height_diff_700_925_m : float }.

(** The open file: the lines not read yet, each with its line end. *)
Definition handle := list string.

Definition readline (h : handle) : string * handle :=
  match h with
  | [] => ("", [])
  | line :: rest => (line, rest)
  end.

(** [for _ in range(n): handle.readline()] *)
Fixpoint skip_levels (n : nat) (h : handle) : handle :=
  match n with
  | O => h
  | S n' => skip_levels n' (snd (readline h))
  end.

Definition or_nan (v : option float) : float :=
  match v with
  | Some x => x
  | None => nan
  end.

(** The loop over the level lines of one block. *)
Fixpoint read_levels (n : nat) (h : handle) (store : level_store)
  : result (handle * level_store) :=
  match n with
  | O => Ok (h, store)
  | S n' =>
      let (data_line, h') := readline h in
      if (data_line =? "")%string then Ok (h', store)
      else
        lvl_type_major <- _parse_int (slice data_line 0 1) ;;
        pressure <- _parse_int (slice data_line 9 15) ;;
        gph <- _parse_int (slice data_line 16 21) ;;
        temp_c <- _parse_float (slice data_line 22 27) 10%float ;;
        rh <- _parse_float (slice data_line 28 33) 10%float ;;
        match pressure, lvl_type_major with
        | Some p, Some _ =>
            p_float <- float_of_int p ;;
            pressure_hpa <- truediv p_float 100%float ;;
            pressure_key <- round pressure_hpa ;;
            gph_float <- match gph with
                         | Some g => float_of_int g
                         | None => Ok nan
                         end ;;
            read_levels n' h'
              (store_set pressure_key
                 (mkLevel pressure_hpa gph_float (or_nan temp_c)
                    (or_nan rh))
                 store)
        | _, _ => read_levels n' h' store
        end
  end.

Section Parser.

Variable libm_pow : float -> float -> float.

(** The record of one block, from its levels; [None] when the sounding is
    dropped. *)
Definition make_record (sounding_ts : Timestamp) (store : level_store)
  : result (option Sounding) :=
  let lvl925 := store_get 925 store in
  let lvl850 := store_get 850 store in
  let lvl700 := store_get 700 store in
  match lvl925, lvl700 with
  | Some l925, Some l700 =>
      if isnan (temp_c l925) || isnan (temp_c l700) then Ok None
      else
        theta925 <- _potential_temperature libm_pow
                      (temp_c l925) (pressure_hpa l925) ;;
        theta700 <- _potential_temperature libm_pow
                      (temp_c l700) (pressure_hpa l700) ;;
        theta850 <- match lvl850 with
                    | Some l850 =>
                        if negb (isnan (temp_c l850))
                        then _potential_temperature libm_pow
                               (temp_c l850) (pressure_hpa l850)
                        else Ok nan
                    | None => Ok nan
                    end ;;
        Ok (Some
              {| datetime := sounding_ts;
                 theta_gradient_700_925_K := (theta700 - theta925)%float;
                 theta_850_K := theta850;
                 relative_humidity_850_pct :=
                   match lvl850 with
                   | Some l850 => if negb (isnan (rh l850)) then rh l850 else nan
                   | None => nan
                   end;
                 height_925_m :=
                   if negb (isnan (gph l925)) then gph l925 else nan;
                 height_diff_700_925_m :=
                   if negb (isnan (gph l700)) && negb (isnan (gph l925))
                   then (gph l700 - gph l925)%float
                   else nan |})
  | _, _ => Ok None
  end.

(** The five header fields, in the order the code decodes them. *)
Record Header : Set := mkHeader
  { h_year : option Z; h_month : option Z; h_day : option Z;
    h_hour : option Z; h_num_levels : Z }.

Definition decode_header (header : string) : result Header :=
  year <- _parse_int (slice header 13 17) ;;
  month <- _parse_int (slice header 18 20) ;;
  day <- _parse_int (slice header 21 23) ;;
  hour <- _parse_int (slice header 24 26) ;;
  levels <- _parse_int (slice header 32 36) ;;
  Ok (mkHeader year month day hour
        (match levels with Some n => n | None => 0 end)).

Definition header_hour (hour : option Z) : Z :=
  match hour with
  | Some h => if h <=? 23 then h else 0
  | None => 0
  end.

Definition the (v : option Z) : Z :=
  match v with
  | Some z => z
  | None => 0
  end.

(** One turn of [while True]: [None] is the [break] at the end of the
    file, otherwise the cursor and the records after the turn. *)
Definition turn (h : handle) (records : list Sounding)
  : result (option (handle * list Sounding)) :=
  let (header, h) := readline h in
  if (header =? "")%string then Ok None
  else if negb (prefix "#" header) then Ok (Some (h, records))
  else
    hd <- decode_header header ;;
    let num_levels := Z.to_nat (h_num_levels hd) in
    if negb (truthy (h_year hd) && truthy (h_month hd) && truthy (h_day hd))
    then Ok (Some (skip_levels num_levels h, records))
    else
      sounding_ts <- pd_Timestamp (the (h_year hd)) (the (h_month hd))
                       (the (h_day hd)) (header_hour (h_hour hd)) ;;
      hs <- read_levels num_levels h [] ;;
      record <- make_record sounding_ts (snd hs) ;;
      match record with
      | Some r => Ok (Some (fst hs, (records ++ [r])%list))
      | None => Ok (Some (fst hs, records))
      end.

(** The loop, with the number of turns it may still take; [None] when
    they are used up. *)
Fixpoint parse_loop (fuel : nat) (h : handle) (records : list Sounding)
  : option (result (list Sounding)) :=
  match fuel with
  | O => None
  | S fuel' =>
      match turn h records with
      | Raise e => Some (Raise e)
      | Ok None => Some (Ok records)
      | Ok (Some (h', records')) => parse_loop fuel' h' records'
      end
  end.

(** Every turn that goes on reads a line, so one turn more than there
    are lines is enough. *)
Definition read_records (lines : list string) : option (result (list Sounding)) :=
  parse_loop (S (List.length lines)) lines [].

(** [DataFrame.from_records(records).dropna(subset=[...])]: without a
    record the frame has no column and [dropna] raises [KeyError]. *)
Definition dropna_gradient (records : list Sounding)
  : result (list Sounding) :=
  match records with
  | [] => Raise KeyError
  | _ => Ok (filter (fun r => negb (isnan (theta_gradient_700_925_K r)))
               records)
  end.

Definition parse_igra_soundings (lines : list string)
  : option (result (list Sounding)) :=
  option_map (fun r => bind r dropna_gradient) (read_records lines).

End Parser.

(** *** Sample lines *)

Definition newline : string := String "010" "".

(** A header of 15 January 2020, 12 h, announcing three levels. *)
Definition header_valid : string :=
  "#USM00072403 2020 01 15 12 1130    3 ncdc-nws ncdc-nws  389333 -774667"
  ++ newline.



(** A header with a complete date whose hour field reads -1. *)
Definition header_hour_minus_one : string :=
  "#USM00072403 2020 01 15 -1 1130    0 ncdc-nws ncdc-nws  389333 -774667"
  ++ newline.

(** A level line with the given pressure (six columns, Pa) and
    temperature (five columns, tenths of a degree). *)
Definition level_line (pressure temperature : string) : string :=
  "21 -9999 " ++ pressure ++ "B  766B" ++ temperature
  ++ "B  650 -9999   230    51" ++ newline.

Definition block_valid : list string :=
  [ header_valid;
    level_line " 92500" "  100";
    level_line " 85000" "   50";
    level_line " 70000" "  -50" ].

(** *** Monthly and seasonal aggregation *)

Record Metrics : Set := mkMetrics
  { theta_gradient_med : float;
    theta_gradient_iqr : float;
    rh_850_med : float;
    height_diff_med : float;
    soundings : Z }.

Definition season_label (ts : Timestamp) : string :=
  let month := ts_month ts in
  if (month =? 12) || (month =? 1) || (month =? 2) then
    str_int (if negb (month =? 12) then ts_year ts else ts_year ts + 1)
    ++ "-" ++ "DJF"
  else if (month =? 3) || (month =? 4) || (month =? 5) then
    str_int (ts_year ts) ++ "-" ++ "MAM"
  else if (month =? 6) || (month =? 7) || (month =? 8) then
    str_int (ts_year ts) ++ "-" ++ "JJA"
  else
    str_int (ts_year ts) ++ "-" ++ "SON".

Section Aggregation.

(** [Series.median()] and [Series.quantile(q)], which skip NaN *)
Variable median : list float -> float.
Variable quantile : list float -> float -> float.

(** The five named aggregations of [.agg(...)] over one group *)
Definition aggregate (group : list Sounding) : Metrics :=
  let s := map theta_gradient_700_925_K group in
  {| theta_gradient_med := median s;
     theta_gradient_iqr := (quantile s 0.75 - quantile s 0.25)%float;
     rh_850_med := median (map relative_humidity_850_pct group);
     height_diff_med := median (map height_diff_700_925_m group);
     soundings :=
       Z.of_nat (List.length (filter (fun x => negb (isnan x)) s)) |}.

Definition compute_monthly_metrics (df : list Sounding)
  : list (string * Metrics) :=
  map (fun g => (period_str (fst g), aggregate (snd g)))
    (groupby (fun r => to_period (datetime r)) period_eqb period_leb df).

Definition compute_seasonal_metrics (df : list Sounding)
  : list (string * Metrics) :=
  map (fun g => (fst g, aggregate (snd g)))
    (groupby (fun r => season_label (datetime r)) String.eqb String.leb df).

End Aggregation.

(** *** The monthly aerosol tables and the merge *)

(** A row of [read_aeronet_monthly] *)
Record AodRow : Set := mkAodRow
  { aod_month : Period;
    AOD_500nm : float;
    AOD_870nm : float;
    AE_440_870 : float;
    NUM_DAYS : float }.

(** A row of [read_sda_monthly] *)
Record SdaRow : Set := mkSdaRow
  { sda_month : Period;
    Total_AOD_500nm : float;
    Fine_Mode_AOD_500nm : float;
    Coarse_Mode_AOD_500nm : float;
    FineModeFraction_500nm : float }.

(** [aerosol_monthly]: the two aerosol tables joined on the month, sorted,
    the month turned into text. *)
Definition aerosol_monthly (aod_monthly : list AodRow)
  (sda_monthly : list SdaRow) : list (string * (AodRow * SdaRow)) :=
  map (fun r => (period_str (aod_month (fst r)), r))
    (sort_values (fun r => aod_month (fst r)) period_leb
       (merge_inner aod_month sda_month period_eqb aod_monthly sda_monthly)).

Record MergedRow : Set := mkMergedRow
  { month : string;
    sounding_metrics : Metrics;
    optical_depth : AodRow;
    deconvolution : SdaRow }.

(** [merged]: the sounding months joined with the aerosol months, from
    2010-01 on. *)
Definition merge_combo (igra_monthly : list (string * Metrics))
  (aerosol : list (string * (AodRow * SdaRow))) : list MergedRow :=
  filter (fun r => ("2010-01" <=? month r)%string)
    (map (fun lr => mkMergedRow (fst (fst lr)) (snd (fst lr))
                      (fst (snd (snd lr))) (snd (snd (snd lr))))
       (merge_inner fst fst String.eqb igra_monthly aerosol)).

Section Main.

Variable median : list float -> float.
Variable quantile : list float -> float -> float.

(** The tables [main] writes, from the parsed sounding frame and the two
    aerosol frames. *)
Record Outputs : Set := mkOutputs
  { igra_monthly_metrics : list (string * Metrics);
    igra_seasonal_metrics : list (string * Metrics);
    aeronet_monthly_metrics : list (string * (AodRow * SdaRow));
    near_space_monthly_combo : list MergedRow }.

Definition main (igra_df : list Sounding) (aod_monthly : list AodRow)
  (sda_monthly : list SdaRow) : Outputs :=
  let igra_monthly := compute_monthly_metrics median quantile igra_df in
  let igra_seasonal := compute_seasonal_metrics median quantile igra_df in
  let aerosol := aerosol_monthly aod_monthly sda_monthly in
  mkOutputs igra_monthly igra_seasonal aerosol
    (merge_combo igra_monthly aerosol).

End Main.

(** *** Sample tables *)

Definition sounding_at (year month day : Z) (gradient : float) : Sounding :=
  {| datetime := mkTimestamp year month day 12;
     theta_gradient_700_925_K := gradient;
     theta_850_K := 300;
     relative_humidity_850_pct := 60;
     height_925_m := 766;
     height_diff_700_925_m := 2300 |}.

(** Soundings of December 2009, January 2010 and March 2011. *)
Definition sample_soundings : list Sounding :=
  [ sounding_at 2011 3 2 9.5;
    sounding_at 2009 12 30 14;
    sounding_at 2010 1 5 12.5;
    sounding_at 2010 1 6 13 ].

Definition sample_aod : list AodRow :=
  [ mkAodRow (mkPeriod 2009 12) 0.4 0.2 1.1 20;
    mkAodRow (mkPeriod 2010 1) 0.45 0.25 1.2 18;
    mkAodRow (mkPeriod 2010 2) 0.3 0.15 1.0 22;
    mkAodRow (mkPeriod 2011 3) 0.5 0.3 0.9 25 ].

Definition sample_sda : list SdaRow :=
  [ mkSdaRow (mkPeriod 2011 3) 0.5 0.2 0.3 0.4;
    mkSdaRow (mkPeriod 2010 1) 0.45 0.35 0.1 0.7;
    mkSdaRow (mkPeriod 2009 12) 0.4 0.3 0.1 0.75 ].

End NearSpace.

Import NearSpace.

(** ** atmospheric_analysis.py *)

Module Analysis.

(** A row of the merged table as [load_analysis_data] reads it back: the
    month is a timestamp, a missing number is NaN. *)
Record ComboRow : Set := mkComboRow
  { c_month : Timestamp;
    c_theta_gradient_med : float;
    c_theta_gradient_iqr : float;
    c_rh_850_med : float;
    c_height_diff_med : float;
    c_soundings : float;
    c_AOD_500nm : float;
    c_AOD_870nm : float;
    c_AE_440_870 : float;
    c_obs_days : float;
    c_Total_AOD_500nm : float;
    c_Fine_Mode_AOD_500nm : float;
    c_Coarse_Mode_AOD_500nm : float;
    c_FineModeFraction_500nm : float }.

(** *** Correlations *)

Record Correlation : Set := mkCorrelation
  { r : float; p_value : float; significance : string }.

(** The six columns of [clean_combo]; [dropna] keeps the rows that have
    them all. *)
Definition clean_columns (row : ComboRow) : list float :=
  [ c_theta_gradient_med row;
    c_Fine_Mode_AOD_500nm row;
    c_Coarse_Mode_AOD_500nm row;
    c_Total_AOD_500nm row;
    c_FineModeFraction_500nm row;
    c_rh_850_med row ].

Definition dropna (combo : list ComboRow) : list ComboRow :=
  filter (fun row => forallb (fun x => negb (isnan x)) (clean_columns row))
    combo.

Section Correlations.

(** [scipy.stats.pearsonr] and Python's [round(x, ndigits)] *)
Variable pearsonr : list float -> list float -> float * float.
Variable round_to : float -> Z -> float.

Definition correlate (xs ys : list float) : Correlation :=
  let (r_, p_) := pearsonr xs ys in
  {| r := round_to r_ 3;
     p_value := round_to p_ 4;
     significance :=
       if PrimFloat.ltb p_ 0.05 then "significant" else "not significant" |}.

Definition calculate_correlations (combo : list ComboRow)
  : list (string * Correlation) :=
  let clean_combo := dropna combo in
  if (2 <? Z.of_nat (List.length clean_combo)) then
    [ ("stability_vs_fine_aod",
       correlate (map c_theta_gradient_med clean_combo)
         (map c_Fine_Mode_AOD_500nm clean_combo));
      ("stability_vs_coarse_aod",
       correlate (map c_theta_gradient_med clean_combo)
         (map c_Coarse_Mode_AOD_500nm clean_combo));
      ("stability_vs_fine_fraction",
       correlate (map c_theta_gradient_med clean_combo)
         (map c_FineModeFraction_500nm clean_combo));
      ("humidity_vs_fine_aod",
       correlate (map c_rh_850_med clean_combo)
         (map c_Fine_Mode_AOD_500nm clean_combo)) ]
  else [].

End Correlations.

(** The two columns of each correlation pair, as the specification names
    the pairs; [None] for any other key. *)
Definition pair_columns (key : string)
  : option ((ComboRow -> float) * (ComboRow -> float)) :=
  if (key =? "stability_vs_fine_aod")%string then
    Some (c_theta_gradient_med, c_Fine_Mode_AOD_500nm)
  else if (key =? "stability_vs_coarse_aod")%string then
    Some (c_theta_gradient_med, c_Coarse_Mode_AOD_500nm)
  else if (key =? "stability_vs_fine_fraction")%string then
    Some (c_theta_gradient_med, c_FineModeFraction_500nm)
  else if (key =? "humidity_vs_fine_aod")%string then
    Some (c_rh_850_med, c_Fine_Mode_AOD_500nm)
  else None.

(** The paired observations of one pair, as the specification words
    them: the rows where both columns of the pair are present. *)
Definition paired_observations (x y : ComboRow -> float)
  (combo : list ComboRow) : list ComboRow :=
  filter (fun row => negb (isnan (x row)) && negb (isnan (y row))) combo.

(** *** Episodes *)

Definition STRONG_INVERSION_THRESHOLD : float := 12.
Definition HIGH_FINE_AOD_THRESHOLD : float := 0.3.
Definition HIGH_RH_THRESHOLD : float := 70.

(** [a > b] on floats *)
Definition gt (a b : float) : bool := PrimFloat.ltb b a.

Definition high_pollution_episode (row : ComboRow) : bool :=
  gt (c_theta_gradient_med row) STRONG_INVERSION_THRESHOLD
  && gt (c_Fine_Mode_AOD_500nm row) HIGH_FINE_AOD_THRESHOLD.

Definition stagnant_conditions (row : ComboRow) : bool :=
  gt (c_theta_gradient_med row) STRONG_INVERSION_THRESHOLD
  && gt (c_rh_850_med row) HIGH_RH_THRESHOLD.

Definition month_abbr (m : Z) : string :=
  nth (Z.to_nat (m - 1))
    ["Jan"; "Feb"; "Mar"; "Apr"; "May"; "Jun";
     "Jul"; "Aug"; "Sep"; "Oct"; "Nov"; "Dec"] "".

(** [ts.strftime("%Y-%b")] *)
Definition strftime_Y_b (ts : Timestamp) : string :=
  str_int (ts_year ts) ++ "-" ++ month_abbr (ts_month ts).

Record Episode : Set := mkEpisode
  { e_month_name : string;
    e_theta_gradient_med : float;
    e_Fine_Mode_AOD_500nm : float;
    e_Coarse_Mode_AOD_500nm : float;
    e_rh_850_med : float;
    e_stagnant_conditions : bool }.

Definition episode_of (row : ComboRow) : Episode :=
  {| e_month_name := strftime_Y_b (c_month row);
     e_theta_gradient_med := c_theta_gradient_med row;
     e_Fine_Mode_AOD_500nm := c_Fine_Mode_AOD_500nm row;
     e_Coarse_Mode_AOD_500nm := c_Coarse_Mode_AOD_500nm row;
     e_rh_850_med := c_rh_850_med row;
     e_stagnant_conditions := stagnant_conditions row |}.

Definition identify_high_pollution_episodes (combo : list ComboRow)
  : list Episode :=
  map episode_of (filter high_pollution_episode combo).

(** *** Mixing metrics *)

Definition classify_dispersion (row : ComboRow) : string :=
  if PrimFloat.ltb (c_theta_gradient_med row) 8 then "Excellent"
  else if PrimFloat.ltb (c_theta_gradient_med row) 12 then "Good"
  else if PrimFloat.ltb (c_theta_gradient_med row) 15 then "Moderate"
  else "Poor".

Record Mixing : Set := mkMixing
  { m_month : Timestamp;
    m_theta_gradient_med : float;
    m_rh_850_med : float;
    mixing_potential : float;
    ventilation_index : float;
    dispersion_potential : string }.

Definition calculate_mixing_metrics (combo : list ComboRow) : list Mixing :=
  map (fun row =>
         let mixing := (1 / (c_theta_gradient_med row + 1))%float in
         {| m_month := c_month row;
            m_theta_gradient_med := c_theta_gradient_med row;
            m_rh_850_med := c_rh_850_med row;
            mixing_potential := mixing;
            ventilation_index := (mixing * (100 - c_rh_850_med row))%float;
            dispersion_potential := classify_dispersion row |})
    combo.

(** *** Source attribution *)

Definition attribute_source (row : ComboRow) : string :=
  let fine_frac := c_FineModeFraction_500nm row in
  if isnan fine_frac then "Unknown"
  else if gt fine_frac 0.6 then "Combustion-dominated (urban/biomass)"
  else if gt fine_frac 0.4 then "Mixed (combustion + dust)"
  else "Dust-dominated (natural)".

(** The month-to-season dictionary of [.map]; a month outside it has no
    season. *)
Definition season_of_month (m : Z) : option string :=
  if (m =? 12) || (m =? 1) || (m =? 2) then Some "DJF"
  else if (m =? 3) || (m =? 4) || (m =? 5) then Some "MAM"
  else if (m =? 6) || (m =? 7) || (m =? 8) then Some "JJA"
  else if (m =? 9) || (m =? 10) || (m =? 11) then Some "SON"
  else None.

Definition aerosol_source_attribution (combo : list ComboRow) : Crosstab :=
  crosstab
    (flat_map
       (fun row =>
          match season_of_month (ts_month (c_month row)) with
          | Some season => [(season, attribute_source row)]
          | None => []
          end)
       combo).

(** *** Sample rows *)

(** A row of January 2015 with the given stability, fine and coarse
    optical depth, fine fraction and humidity; total optical depth is the
    last argument. *)
Definition sample_row (theta fine coarse fraction humidity total : float)
  : ComboRow :=
  {| c_month := mkTimestamp 2015 1 1 0;
     c_theta_gradient_med := theta;
     c_theta_gradient_iqr := 2;
     c_rh_850_med := humidity;
     c_height_diff_med := 2300;
     c_soundings := 60;
     c_AOD_500nm := total;
     c_AOD_870nm := 0.2;
     c_AE_440_870 := 1.1;
     c_obs_days := 20;
     c_Total_AOD_500nm := total;
     c_Fine_Mode_AOD_500nm := fine;
     c_Coarse_Mode_AOD_500nm := coarse;
     c_FineModeFraction_500nm := fraction |}.

(** Three months whose stability and optical depths are all present; the
    humidity of the second month is missing. *)
Definition combo_humidity_gap : list ComboRow :=
  [ sample_row 9 0.2 0.1 0.6 55 0.3;
    sample_row 13 0.35 0.1 0.7 nan 0.45;
    sample_row 11 0.25 0.15 0.6 60 0.4 ].

(** Three complete months. *)
Definition combo_complete : list ComboRow :=
  [ sample_row 9 0.2 0.1 0.6 55 0.3;
    sample_row 13 0.35 0.1 0.7 75 0.45;
    sample_row 11 0.25 0.15 0.6 60 0.4 ].

End Analysis.

(** ** Insights: generate_atmospheric_insights *)

Module Insights.

Import Py NearSpace Analysis.

Record Insight : Set := mkInsight
  { category : string;
    insight : string;
    implication : string;
    evidence : string }.

(** [key in d] and [d[key]] on a dictionary with text keys *)
Fixpoint dict_get {V : Type} (key : string) (d : list (string * V))
  : option V :=
  match d with
  | [] => None
  | (k, v) :: d' => if (k =? key)%string then Some v else dict_get key d'
  end.

(** [.dt.month.isin(months)] *)
Definition isin (m : Z) (months : list Z) : bool := existsb (Z.eqb m) months.

Definition empty {A : Type} (l : list A) : bool :=
  match l with [] => true | _ => false end.

(** [l.append(x)] *)
Definition append {A : Type} (l : list A) (x : A) : list A := (l ++ [x])%list.

(** The Greek letter theta of the evidence text, in UTF-8. *)
Definition theta : string := String "206" (String "184" "").

Section WithText.

(** The text of a number in an f-string, [format(x, '.nf')] and
    [Series.mean] *)
Variable str_float : float -> string.
Variable format_fixed : nat -> float -> string.
Variable mean : list float -> float.

Definition generate_atmospheric_insights (combo : list ComboRow)
  (correlations : list (string * Correlation)) : list Insight :=
  let insights := [] in
  let insights :=
    match dict_get "stability_vs_fine_aod" correlations with
    | Some corr =>
        if (significance corr =? "significant")%string then
          append insights
            {| category := "Atmospheric Dynamics";
               insight :=
                 "Strong stability correlates with fine-mode aerosols (r="
                 ++ str_float (r corr) ++ ")";
               implication :=
                 "Inversions trap combustion emissions near surface";
               evidence := "p-value = " ++ str_float (p_value corr) |}
        else insights
    | None => insights
    end in
  let winter :=
    filter (fun row => isin (ts_month (c_month row)) [12; 1; 2]) combo in
  let summer :=
    filter (fun row => isin (ts_month (c_month row)) [6; 7; 8]) combo in
  let insights :=
    if negb (empty winter) && negb (empty summer) then
      let winter_stability := mean (map c_theta_gradient_med winter) in
      let summer_stability := mean (map c_theta_gradient_med summer) in
      if gt winter_stability (summer_stability * 1.3)%float then
        append insights
          {| category := "Seasonal Variation";
             insight := "Winter shows significantly stronger inversions";
             implication :=
               "Heating season exacerbates air quality issues";
             evidence :=
               "Winter: " ++ format_fixed 1 winter_stability
               ++ "K vs Summer: " ++ format_fixed 1 summer_stability
               ++ "K" |}
      else insights
    else insights in
  let high_episodes :=
    filter (fun row => gt (c_theta_gradient_med row) 12
                       && gt (c_Fine_Mode_AOD_500nm row) 0.3) combo in
  let insights :=
    if 0 <? Z.of_nat (List.length high_episodes) then
      append insights
        {| category := "Air Quality Events";
           insight :=
             str_int (Z.of_nat (List.length high_episodes))
             ++ " months with combined high stability + aerosols";
           implication := "Critical periods for health interventions";
           evidence :=
             theta ++ "-gradient >12K and fine-mode AOD >0.3" |}
    else insights in
  let high_rh := filter (fun row => gt (c_rh_850_med row) 70) combo in
  let insights :=
    if negb (empty high_rh) then
      let avg_fine_aod := mean (map c_Fine_Mode_AOD_500nm high_rh) in
      append insights
        {| category := "Moisture Effects";
           insight :=
             "High humidity months show elevated fine aerosols (mean AOD: "
             ++ format_fixed 3 avg_fine_aod ++ ")";
           implication :=
             "Hygroscopic growth enhances particle concentrations";
           evidence :=
             str_int (Z.of_nat (List.length high_rh))
             ++ " months with RH >70%" |}
    else insights in
  insights.

End WithText.

End Insights.

(** ** Notions used to state further properties *)

Module Notions.

(** The number of digits of the decimal text of an integer. *)
Definition digits (z : Z) : Z :=
  Z.of_nat (String.length (str_int (Z.abs z))).

(** [n] blanks, the padding of a fixed-width field *)
Definition blanks (n : nat) : string :=
  string_of_list_ascii (repeat " "%char n).

(** The fields of a timestamp lie in the calendar. *)
Definition timestamp_ok (ts : Timestamp) : bool :=
  (1 <=? ts_year ts) && (ts_year ts <=? 9999)
  && (1 <=? ts_month ts) && (ts_month ts <=? 12)
  && (1 <=? ts_day ts)
  && (ts_day ts <=? days_in_month (ts_year ts) (ts_month ts))
  && (0 <=? ts_hour ts) && (ts_hour ts <=? 23).

(** The number of lines that start with the header mark. *)
Definition header_count (h : handle) : nat :=
  List.length (filter (prefix "#") h).

(** Every level is filed under the rounding of its own pressure. *)
Definition store_keyed (s : level_store) : Prop :=
  Forall (fun kv => Py.round (pressure_hpa (snd kv)) = Ok (fst kv)) s.

(** The exceptions of a badly written field or number. *)
Definition soft (e : exn) : Prop := e = ValueError \/ e = OverflowError.

(** The level a data line holds, with the key it is filed under: the body
    of the level loop; [None] for a line without pressure or without
    level type. *)
Definition level_of_line (data_line : string)
  : result (option (Z * Level)) :=
  lvl_type_major <- _parse_int (slice data_line 0 1) ;;
  pressure <- _parse_int (slice data_line 9 15) ;;
  gph <- _parse_int (slice data_line 16 21) ;;
  temp_c <- _parse_float (slice data_line 22 27) 10%float ;;
  rh <- _parse_float (slice data_line 28 33) 10%float ;;
  match pressure, lvl_type_major with
  | Some p, Some _ =>
      p_float <- float_of_int p ;;
      pressure_hpa <- truediv p_float 100%float ;;
      pressure_key <- round pressure_hpa ;;
      gph_float <- match gph with
                   | Some g => float_of_int g
                   | None => Ok nan
                   end ;;
      Ok (Some (pressure_key,
                mkLevel pressure_hpa gph_float (or_nan temp_c) (or_nan rh)))
  | _, _ => Ok None
  end.

Definition file_level (lvl : option (Z * Level)) (s : level_store)
  : level_store :=
  match lvl with
  | Some (k, l) => store_set k l s
  | None => s
  end.

(** The lines the level loop reads: at most [n], up to the end of the
    file. *)
Fixpoint block_lines (n : nat) (h : handle) : list string :=
  match n, h with
  | S n', line :: rest =>
      if (line =? "")%string then [] else line :: block_lines n' rest
  | _, _ => []
  end.

(** The level of the last of the lines that is filed under [k]. *)
Fixpoint last_level (k : Z) (lines : list string) : option Level :=
  match lines with
  | [] => None
  | line :: rest =>
      match last_level k rest with
      | Some l => Some l
      | None =>
          match level_of_line line with
          | Ok (Some (k', l)) => if k =? k' then Some l else None
          | _ => None
          end
      end
  end.

(** Three level lines, the first two for the same rounded pressure
    (925.0 and 925.4 hPa), and the store of the block they make. *)
Definition block_repeated_level : list string :=
  [ level_line " 92500" "  100";
    level_line " 92540" "  120";
    level_line " 70000" "  -50" ].

Definition store_of_block_repeated : level_store :=
  match read_levels 3 block_repeated_level [] with
  | Ok (_, s) => s
  | Raise _ => []
  end.

(** The level store of the block [block_valid]. *)
Definition store_of_block_valid : level_store :=
  match read_levels 3 (tl block_valid) [] with
  | Ok (_, s) => s
  | Raise _ => []
  end.

(** The frame that [parse_igra_soundings] returns for [block_valid]. *)
Definition frame_of_block_valid : list Sounding :=
  match parse_igra_soundings (fun x _ => x) block_valid with
  | Some (Ok df) => df
  | _ => []
  end.

Definition has_gradient (r : Sounding) : bool :=
  negb (isnan (theta_gradient_700_925_K r)).

(** The sum of the [soundings] column of a table of metrics. *)
Definition total_soundings (table : list (string * Metrics)) : Z :=
  fold_right Z.add 0 (map (fun row => soundings (snd row)) table).

(** The sum of all cells of a cross-table. *)
Definition crosstab_total (ct : Crosstab) : Z :=
  fold_right Z.add 0 (map (fold_right Z.add 0) (ct_counts ct)).

(** The dispersion classes from the best to the worst, and the source
    labels by growing share of fine particles. *)
Definition dispersion_rank (label : string) : Z :=
  if (label =? "Excellent")%string then 0
  else if (label =? "Good")%string then 1
  else if (label =? "Moderate")%string then 2
  else 3.

Definition source_rank (label : string) : Z :=
  if (label =? "Dust-dominated (natural)")%string then 0
  else if (label =? "Mixed (combustion + dust)")%string then 1
  else if (label =? "Combustion-dominated (urban/biomass)")%string then 2
  else 3.

(** Aerosol tables with the month of [block_valid], January 2020. *)
Definition aod_with_2020 : list AodRow :=
  [ mkAodRow (mkPeriod 2019 12) 0.4 0.2 1.1 20;
    mkAodRow (mkPeriod 2020 1) 0.45 0.25 1.2 18 ].

Definition sda_with_2020 : list SdaRow :=
  [ mkSdaRow (mkPeriod 2020 1) 0.45 0.35 0.1 0.7;
    mkSdaRow (mkPeriod 2019 12) 0.4 0.3 0.1 0.75 ].

(** A file of two lines without header mark. *)
Definition lines_without_header : list string :=
  [ "USM00072403 station list" ++ newline; "end of list" ++ newline ].

(** [xs] is [ys] with some elements left out. *)
Fixpoint subseq (xs ys : list string) : bool :=
  match xs, ys with
  | [], _ => true
  | _ :: _, [] => false
  | x :: xs', y :: ys' =>
      if (x =? y)%string then subseq xs' ys' else subseq xs ys'
  end.

Definition insight_categories : list string :=
  [ "Atmospheric Dynamics"; "Seasonal Variation"; "Air Quality Events";
    "Moisture Effects" ].

End Notions.

(** * Part II: properties *)

(** ** Facts about binary64 numbers *)

Module FloatFacts.

Lemma SFcompare_antisym (x y : spec_float) :
  SFcompare y x = option_map CompOpp (SFcompare x y).
Proof.
  destruct x as [sx|sx| |sx mx ex], y as [sy|sy| |sy my ey]; simpl;
    try reflexivity;
    try (destruct sx; reflexivity);
    try (destruct sy; reflexivity);
    try (destruct sx, sy; reflexivity).
  destruct sx, sy; simpl; try reflexivity;
    rewrite (Z.compare_antisym ex ey);
    destruct (ex ?= ey) eqn:E; simpl; try reflexivity;
    rewrite (Pos.compare_cont_antisym mx my Eq); reflexivity.
Qed.

Lemma leb_not_gt (a b : float) :
  PrimFloat.leb a b = true -> PrimFloat.ltb b a = false.
Proof.
  rewrite leb_spec, ltb_spec. unfold SFleb, SFltb.
  rewrite (SFcompare_antisym (Prim2SF a) (Prim2SF b)).
  destruct (SFcompare (Prim2SF a) (Prim2SF b)) as [[ | | ]|];
    simpl; congruence.
Qed.

Lemma SFcompare_refl_nan (x : spec_float) :
  SFeqb x x = false -> x = S754_nan.
Proof.
  unfold SFeqb. destruct x as [s|s| |s m e]; simpl; try reflexivity.
  - discriminate.
  - destruct s; discriminate.
  - destruct s; rewrite Z.compare_refl, Pos.compare_cont_refl; discriminate.
Qed.

(** NaN is the only number that differs from itself. *)
Lemma is_nan_eq (x : float) : PrimFloat.is_nan x = true -> x = nan.
Proof.
  unfold PrimFloat.is_nan. rewrite negb_true_iff, eqb_spec. intros H.
  apply Prim2SF_inj. rewrite (SFcompare_refl_nan _ H). reflexivity.
Qed.

(** A number equal to a finite non-zero constant is that constant. *)
Lemma eqb_finite_eq (x c : float) (s : bool) (m : positive) (e : Z) :
  Prim2SF c = S754_finite s m e -> PrimFloat.eqb x c = true -> x = c.
Proof.
  intros Hc. rewrite eqb_spec, Hc. unfold SFeqb. intros H.
  apply Prim2SF_inj. rewrite Hc.
  destruct (Prim2SF x) as [sx|sx| |sx mx ex]; simpl in H;
    try discriminate;
    try (destruct sx; discriminate);
    try (destruct s; discriminate).
  destruct sx, s; try discriminate;
    destruct (ex ?= e) eqn:E; try discriminate;
    apply Z.compare_eq in E; subst ex;
    destruct (Pos.compare_cont Eq mx m) eqn:M; try discriminate;
    apply Pos.compare_eq in M; subst mx; reflexivity.
Qed.

Lemma SFcompare_nan_r (x : spec_float) : SFcompare x S754_nan = None.
Proof. destruct x; reflexivity. Qed.

(** Every comparison with NaN is false. *)
Lemma ltb_nan_l (c : float) : PrimFloat.ltb nan c = false.
Proof. rewrite ltb_spec. reflexivity. Qed.

Lemma ltb_nan_r (c : float) : PrimFloat.ltb c nan = false.
Proof.
  rewrite ltb_spec. unfold SFltb.
  change (Prim2SF nan) with S754_nan. rewrite SFcompare_nan_r. reflexivity.
Qed.

Lemma ltb_not_nan_r (a b : float) :
  PrimFloat.ltb a b = true -> PrimFloat.is_nan b = false.
Proof.
  intros H. destruct (PrimFloat.is_nan b) eqn:E; [|reflexivity].
  apply is_nan_eq in E. subst b. rewrite ltb_nan_r in H. discriminate.
Qed.

Lemma ltb_not_eq (a b : float) :
  PrimFloat.ltb a b = true -> PrimFloat.eqb b a = false.
Proof.
  rewrite eqb_spec, ltb_spec. unfold SFeqb, SFltb.
  rewrite (SFcompare_antisym (Prim2SF a) (Prim2SF b)).
  destruct (SFcompare (Prim2SF a) (Prim2SF b)) as [[ | | ]|];
    simpl; congruence.
Qed.

(** The order is transitive through positive finite numbers. *)
Lemma SFltb_trans_pos (x : spec_float) (ma mb : positive) (ea eb : Z) :
  SFltb x (S754_finite false ma ea) = true ->
  SFltb (S754_finite false ma ea) (S754_finite false mb eb) = true ->
  SFltb x (S754_finite false mb eb) = true.
Proof.
  unfold SFltb.
  destruct x as [s|s| |s m e]; simpl; try discriminate; try reflexivity.
  - destruct s; intros; try discriminate; reflexivity.
  - destruct s; [reflexivity|].
    change (Pos.compare_cont Eq) with Pos.compare.
    destruct (Z.compare_spec e ea), (Z.compare_spec ea eb),
      (Z.compare_spec e eb); intros; try discriminate; try lia;
      try reflexivity; subst;
      destruct (Pos.compare_spec m ma), (Pos.compare_spec ma mb),
        (Pos.compare_spec m mb); try discriminate; try lia; reflexivity.
Qed.

Lemma ltb_trans_pos (x a b : float) (ma mb : positive) (ea eb : Z) :
  Prim2SF a = S754_finite false ma ea ->
  Prim2SF b = S754_finite false mb eb ->
  PrimFloat.ltb x a = true -> PrimFloat.ltb a b = true ->
  PrimFloat.ltb x b = true.
Proof.
  intros Ha Hb. rewrite !ltb_spec, Ha, Hb. apply SFltb_trans_pos.
Qed.

Lemma SFltb_trans_pos_l (x : spec_float) (ma mb : positive) (ea eb : Z) :
  SFltb (S754_finite false ma ea) (S754_finite false mb eb) = true ->
  SFltb (S754_finite false mb eb) x = true ->
  SFltb (S754_finite false ma ea) x = true.
Proof.
  unfold SFltb.
  destruct x as [s|s| |s m e]; simpl; try discriminate; try reflexivity.
  - destruct s; intros; try discriminate; reflexivity.
  - destruct s; [intros; discriminate|].
    change (Pos.compare_cont Eq) with Pos.compare.
    destruct (Z.compare_spec ea eb), (Z.compare_spec eb e),
      (Z.compare_spec ea e); intros; try discriminate; try lia;
      try reflexivity; subst;
      destruct (Pos.compare_spec ma mb), (Pos.compare_spec mb m),
        (Pos.compare_spec ma m); try discriminate; try lia; reflexivity.
Qed.

Lemma ltb_trans_pos_l (a b x : float) (ma mb : positive) (ea eb : Z) :
  Prim2SF a = S754_finite false ma ea ->
  Prim2SF b = S754_finite false mb eb ->
  PrimFloat.ltb a b = true -> PrimFloat.ltb b x = true ->
  PrimFloat.ltb a x = true.
Proof.
  intros Ha Hb. rewrite !ltb_spec, Ha, Hb. apply SFltb_trans_pos_l.
Qed.

(** Multiplying by one is exact. *)
Lemma mul_pow52 (m : positive) :
  Pos.mul m 4503599627370496 = Pos.iter xO m 52.
Proof. rewrite Pos.mul_comm. reflexivity. Qed.

Lemma digits2_pos_xO (m : positive) :
  Zpos (digits2_pos (xO m)) = Zpos (digits2_pos m) + 1.
Proof. cbn [digits2_pos]. rewrite Pos2Z.inj_succ. lia. Qed.

Lemma digits2_pos_shift (m : positive) :
  Zpos (digits2_pos (Pos.iter xO m 52)) = Zpos (digits2_pos m) + 52.
Proof. cbv [Pos.iter]. rewrite !digits2_pos_xO. lia. Qed.

Lemma shr_52 (m : positive) :
  iter_pos shr_1 52
    (Build_shr_record (Zpos (Pos.iter xO m 52)) false false)
  = Build_shr_record (Zpos m) false false.
Proof. reflexivity. Qed.

Lemma shr_fexp_shift (m : positive) (e : Z) :
  fexp prec emax (Z.pos (digits2_pos m) + e) = e ->
  shr_fexp prec emax (Z.pos (Pos.iter xO m 52)) (e + -52) loc_Exact
  = (Build_shr_record (Zpos m) false false, e).
Proof.
  intros C. unfold shr_fexp, Zdigits2.
  rewrite digits2_pos_shift.
  replace (Z.pos (digits2_pos m) + 52 + (e + -52))
    with (Z.pos (digits2_pos m) + e) by lia.
  rewrite C.
  replace (e - (e + -52)) with 52 by lia.
  unfold shr. cbn [shr_record_of_loc]. rewrite shr_52.
  f_equal. lia.
Qed.

Lemma shr_fexp_fixed (m : positive) (e : Z) :
  fexp prec emax (Z.pos (digits2_pos m) + e) = e ->
  shr_fexp prec emax (Z.pos m) e loc_Exact
  = (Build_shr_record (Zpos m) false false, e).
Proof.
  intros C. unfold shr_fexp, Zdigits2. rewrite C, Z.sub_diag. reflexivity.
Qed.

Lemma SFmul_1_r (x : spec_float) :
  valid_binary x = true ->
  SF64mul x (S754_finite false 4503599627370496 (-52)) = x.
Proof.
  destruct x as [s|s| |s m e]; intros V.
  - destruct s; reflexivity.
  - destruct s; reflexivity.
  - reflexivity.
  - unfold valid_binary, SpecFloat.valid_binary, bounded,
      canonical_mantissa in V.
    apply andb_true_iff in V. destruct V as [C B].
    apply Z.eqb_eq in C.
    unfold SF64mul, SFmul, binary_round_aux.
    rewrite mul_pow52, (shr_fexp_shift m e C).
    cbn [shr_m loc_of_shr_record round_nearest_even].
    rewrite (shr_fexp_fixed m e C).
    cbn [shr_m]. rewrite B, xorb_false_r. reflexivity.
Qed.

Lemma mul_1_r (x : float) : (x * 1)%float = x.
Proof.
  apply Prim2SF_inj. rewrite mul_spec.
  change (Prim2SF 1) with (S754_finite false 4503599627370496 (-52)).
  apply SFmul_1_r. apply Prim2SF_valid.
Qed.

(** *** Rounding and division *)

(** A rounded number below zero has the negative sign. *)
Lemma binary_round_aux_shape (s : bool) (m e : Z) (l : location) :
  SFltb (binary_round_aux prec emax s m e l) (S754_zero false) = true ->
  s = true.
Proof.
  unfold binary_round_aux.
  destruct (shr_fexp prec emax m e l) as [mrs' e'].
  destruct (shr_fexp prec emax _ e' loc_Exact) as [mrs'' e''].
  destruct (shr_m mrs''); [| |discriminate].
  - discriminate.
  - destruct (e'' <=? emax - prec); destruct s; try discriminate; reflexivity.
Qed.

(** Rounding a natural number never leaves the numbers. *)
Lemma shr_1_nonneg (mrs : shr_record) : 0 <= shr_m mrs -> 0 <= shr_m (shr_1 mrs).
Proof.
  destruct mrs as [m r s]. simpl. destruct m as [|[p|p|]|p]; simpl; lia.
Qed.

Lemma iter_pos_nonneg (p : positive) (mrs : shr_record) :
  0 <= shr_m mrs -> 0 <= shr_m (iter_pos shr_1 p mrs).
Proof.
  revert mrs. induction p as [p IH|p IH|]; intros mrs H; simpl.
  - apply IH, IH, shr_1_nonneg, H.
  - apply IH, IH, H.
  - apply shr_1_nonneg, H.
Qed.

Lemma shr_fexp_nonneg (m e : Z) (l : location) :
  0 <= m -> 0 <= shr_m (fst (shr_fexp prec emax m e l)).
Proof.
  intros H. unfold shr_fexp, shr.
  assert (R : 0 <= shr_m (shr_record_of_loc m l)).
  { destruct l as [|[ | | ]]; simpl; exact H. }
  destruct (fexp prec emax (Zdigits2 m + e) - e); simpl;
    [exact R| |exact R].
  apply iter_pos_nonneg, R.
Qed.

Lemma binary_round_aux_not_nan (s : bool) (m e : Z) (l : location) :
  0 <= m -> binary_round_aux prec emax s m e l <> S754_nan.
Proof.
  intros H. unfold binary_round_aux.
  pose proof (shr_fexp_nonneg m e l H) as R1.
  destruct (shr_fexp prec emax m e l) as [mrs' e']. simpl in R1.
  set (m1 := round_nearest_even (shr_m mrs') (loc_of_shr_record mrs')).
  assert (M1 : 0 <= m1).
  { unfold m1, round_nearest_even.
    destruct (loc_of_shr_record mrs') as [|[ | | ]];
      [|destruct (Z.even (shr_m mrs'))| |]; lia. }
  pose proof (shr_fexp_nonneg m1 e' loc_Exact M1) as R2.
  destruct (shr_fexp prec emax m1 e' loc_Exact) as [mrs'' e'']. simpl in R2.
  destruct (shr_m mrs''); [discriminate| |lia].
  destruct (e'' <=? emax - prec); discriminate.
Qed.

Lemma SFdiv_core_nonneg (m1 m2 : positive) (e1 e2 : Z) :
  0 <= fst (fst (SFdiv_core_binary prec emax (Zpos m1) e1 (Zpos m2) e2)).
Proof.
  unfold SFdiv_core_binary.
  set (s := e1 - e2 - _).
  set (m' := match s with Z.pos _ => Z.shiftl (Zpos m1) s | 0 => Zpos m1
             | Z.neg _ => 0 end).
  assert (M : 0 <= m').
  { unfold m'. destruct s; [lia| |lia]. apply Z.shiftl_nonneg. lia. }
  pose proof (Z.div_pos m' (Zpos m2) M eq_refl) as Q.
  unfold Z.div in Q. destruct (Z.div_eucl m' (Zpos m2)) as [q r].
  exact Q.
Qed.

(** The quotient of a positive finite number by a positive number is a
    number, and it is not negative. *)
Lemma div_positive (a p : float) (ma : positive) (ea : Z) :
  Prim2SF a = S754_finite false ma ea ->
  PrimFloat.ltb 0 p = true ->
  PrimFloat.is_nan (a / p) = false /\ PrimFloat.ltb (a / p) 0 = false.
Proof.
  intros Ha Hp.
  assert (N : Prim2SF (a / p) <> S754_nan
              /\ SFltb (Prim2SF (a / p)) (S754_zero false) = false).
  { rewrite ltb_spec in Hp. change (Prim2SF 0) with (S754_zero false) in Hp.
    rewrite div_spec, Ha. unfold SF64div, SFdiv.
    destruct (Prim2SF p) as [s|s| |s m e]; try discriminate Hp;
      destruct s; try discriminate Hp.
    - split; [discriminate|reflexivity].
    - pose proof (SFdiv_core_nonneg ma m ea e) as Q.
      destruct (SFdiv_core_binary prec emax (Z.pos ma) ea (Z.pos m) e)
        as [[mz ez] lz]. simpl in Q. cbn [xorb]. split.
      + apply binary_round_aux_not_nan. exact Q.
      + destruct (SFltb (binary_round_aux prec emax false mz ez lz)
                    (S754_zero false)) eqn:E; [|reflexivity].
        apply binary_round_aux_shape in E. discriminate. }
  destruct N as [N1 N2]. split.
  - unfold PrimFloat.is_nan. rewrite eqb_spec.
    destruct (Prim2SF (a / p)) as [s|s| |s m e]; try congruence;
      unfold SFeqb, SFcompare; simpl.
    + reflexivity.
    + destruct s; reflexivity.
    + destruct s; rewrite ?Z.compare_refl, ?Pos.compare_cont_refl;
        rewrite ?Pos.compare_refl; reflexivity.
  - rewrite ltb_spec. exact N2.
Qed.

End FloatFacts.

(** ** Grouping, sorting and joining *)

Module PandasProps.

Section GroupKeys.

Context {A K : Type}.
Variable key : A -> K.
Variables eqb leb : K -> K -> bool.

Let le (a b : K) : Prop := leb a b = true.

Lemma insert_key_In (k x : K) (ks : list K) :
  In x (insert_key eqb leb k ks) -> x = k \/ In x ks.
Proof.
  induction ks as [|k' rest IH]; simpl.
  - intros [H|[]]. left. symmetry. exact H.
  - destruct (eqb k k'); simpl; [tauto|].
    destruct (leb k k'); simpl; [intuition congruence|].
    intros [H|H]; [tauto|]. apply IH in H. tauto.
Qed.

Lemma insert_key_keeps (k x : K) (ks : list K) :
  In x ks -> In x (insert_key eqb leb k ks).
Proof.
  induction ks as [|k' rest IH]; simpl; [tauto|].
  destruct (eqb k k'); simpl; [tauto|].
  destruct (leb k k'); simpl; [tauto|].
  intros [H|H]; [tauto|]. right. apply IH. exact H.
Qed.

(** Every group key is the key of a row. *)
Lemma group_keys_In (k : K) (rows : list A) :
  In k (group_keys key eqb leb rows) -> exists r, In r rows /\ key r = k.
Proof.
  induction rows as [|r rows IH]; simpl; [tauto|].
  intros H. apply insert_key_In in H. destruct H as [H|H].
  - exists r. split; [left; reflexivity|symmetry; exact H].
  - destruct (IH H) as [r' [I E]]. exists r'. tauto.
Qed.

Hypothesis eqb_eq : forall a b, eqb a b = true -> a = b.

Lemma insert_key_adds (k : K) (ks : list K) :
  In k (insert_key eqb leb k ks).
Proof.
  induction ks as [|k' rest IH]; simpl; [tauto|].
  destruct (eqb k k') eqn:E.
  - apply eqb_eq in E. subst. left. reflexivity.
  - destruct (leb k k'); simpl; tauto.
Qed.

(** Every row has its key among the group keys. *)
Lemma group_keys_complete (r : A) (rows : list A) :
  In r rows -> In (key r) (group_keys key eqb leb rows).
Proof.
  induction rows as [|r' rows IH]; simpl; [tauto|].
  intros [H|H].
  - subst. apply insert_key_adds.
  - apply insert_key_keeps. apply IH. exact H.
Qed.

Hypothesis leb_total : forall a b, leb a b = false -> leb b a = true.
Hypothesis leb_trans :
  forall a b c, leb a b = true -> leb b c = true -> leb a c = true.

Lemma insert_key_sorted (k : K) (ks : list K) :
  StronglySorted le ks -> StronglySorted le (insert_key eqb leb k ks).
Proof.
  induction ks as [|k' rest IH]; simpl; intros S.
  - constructor; constructor.
  - destruct (eqb k k'); [exact S|].
    inversion S as [|? ? S' F]; subst.
    destruct (leb k k') eqn:L.
    + constructor; [exact S|]. constructor; [exact L|].
      apply Forall_forall. intros x Hx.
      apply (leb_trans k k' x L).
      exact (proj1 (Forall_forall _ _) F x Hx).
    + constructor; [apply IH; exact S'|].
      apply Forall_forall. intros x Hx.
      apply insert_key_In in Hx. destruct Hx as [Hx|Hx].
      * subst. apply leb_total. exact L.
      * exact (proj1 (Forall_forall _ _) F x Hx).
Qed.

(** The group keys are ascending. *)
Lemma group_keys_sorted (rows : list A) :
  StronglySorted le (group_keys key eqb leb rows).
Proof.
  induction rows as [|r rows IH]; simpl.
  - constructor.
  - apply insert_key_sorted. exact IH.
Qed.

End GroupKeys.

Section SortValues.

Context {A K : Type}.
Variable key : A -> K.
Variable leb : K -> K -> bool.

Lemma insert_row_In (x y : A) (l : list A) :
  In y (insert_row key leb x l) <-> y = x \/ In y l.
Proof.
  induction l as [|z rest IH]; simpl.
  - intuition congruence.
  - destruct (leb (key x) (key z)); simpl; [intuition congruence|].
    rewrite IH. intuition congruence.
Qed.

(** Sorting keeps the rows. *)
Lemma sort_values_In (y : A) (l : list A) :
  In y (sort_values key leb l) <-> In y l.
Proof.
  induction l as [|x rest IH]; simpl; [tauto|].
  rewrite insert_row_In, IH. intuition congruence.
Qed.

End SortValues.

Section Merge.

Context {L R K : Type}.
Variable keyL : L -> K.
Variable keyR : R -> K.
Variable eqb : K -> K -> bool.

(** The inner join holds exactly the pairs of rows with equal keys. *)
Lemma merge_inner_In (l : L) (r : R) (left : list L) (right : list R) :
  In (l, r) (merge_inner keyL keyR eqb left right) <->
  In l left /\ In r right /\ eqb (keyL l) (keyR r) = true.
Proof.
  unfold merge_inner. rewrite in_flat_map. split.
  - intros [l' [I H]]. apply in_map_iff in H.
    destruct H as [r' [E H]]. inversion E; subst.
    apply filter_In in H. tauto.
  - intros [I [J E]]. exists l. split; [exact I|].
    apply in_map. apply filter_In. tauto.
Qed.

Variable le : K -> K -> Prop.
Hypothesis le_refl : forall k, le k k.

Lemma StronglySorted_app (l1 l2 : list K) :
  StronglySorted le l1 -> StronglySorted le l2 ->
  (forall a b, In a l1 -> In b l2 -> le a b) ->
  StronglySorted le (l1 ++ l2)%list.
Proof.
  induction l1 as [|a l1 IH]; simpl; intros S1 S2 H; [exact S2|].
  inversion S1 as [|? ? S1' F]; subst.
  constructor.
  - apply IH; [exact S1'|exact S2|]. intros x y Hx Hy.
    apply H; [right; exact Hx|exact Hy].
  - apply Forall_app. split; [exact F|].
    apply Forall_forall. intros y Hy. apply H; [left; reflexivity|exact Hy].
Qed.

(** The join follows the order of the left keys. *)
Lemma merge_inner_sorted (left : list L) (right : list R) :
  StronglySorted le (map keyL left) ->
  StronglySorted le
    (map (fun lr => keyL (fst lr)) (merge_inner keyL keyR eqb left right)).
Proof.
  unfold merge_inner.
  induction left as [|l left IH]; simpl; intros S; [constructor|].
  inversion S as [|? ? S' F]; subst.
  rewrite map_app. apply StronglySorted_app.
  - rewrite map_map. simpl.
    induction (filter (fun r => eqb (keyL l) (keyR r)) right)
      as [|r rs IHr]; simpl; constructor; [exact IHr|].
    apply Forall_forall. intros x Hx. apply in_map_iff in Hx.
    destruct Hx as [? [E _]]. subst. apply le_refl.
  - apply IH. exact S'.
  - intros a b Ha Hb.
    rewrite map_map in Ha. simpl in Ha. apply in_map_iff in Ha.
    destruct Ha as [? [E _]]. subst a.
    apply in_map_iff in Hb. destruct Hb as [[l' r'] [E Hb]]. subst b.
    simpl. apply in_flat_map in Hb. destruct Hb as [l'' [I Hb]].
    apply in_map_iff in Hb. destruct Hb as [? [E _]].
    inversion E; subst.
    apply (proj1 (Forall_forall _ _) F). apply in_map. exact I.
Qed.

End Merge.

Lemma StronglySorted_filter_map {A K : Type} (le : K -> K -> Prop)
  (f : A -> K) (p : A -> bool) (l : list A) :
  StronglySorted le (map f l) -> StronglySorted le (map f (filter p l)).
Proof.
  induction l as [|a l IH]; simpl; intros S; [constructor|].
  inversion S as [|? ? S' F]; subst.
  destruct (p a); simpl; [|apply IH; exact S'].
  constructor; [apply IH; exact S'|].
  apply Forall_forall. intros x Hx. apply in_map_iff in Hx.
  destruct Hx as [y [E Hy]]. subst x. apply filter_In in Hy.
  apply (proj1 (Forall_forall _ _) F). apply in_map. tauto.
Qed.

Lemma StronglySorted_map_mono {A B : Type} (leA : A -> A -> Prop)
  (leB : B -> B -> Prop) (f : A -> B) (l : list A) :
  (forall a b, In a l -> In b l -> leA a b -> leB (f a) (f b)) ->
  StronglySorted leA l -> StronglySorted leB (map f l).
Proof.
  induction l as [|a l IH]; simpl; intros M S; [constructor|].
  inversion S as [|? ? S' F]; subst.
  constructor.
  - apply IH; [|exact S']. intros x y Hx Hy. apply M; right; assumption.
  - apply Forall_forall. intros y Hy. apply in_map_iff in Hy.
    destruct Hy as [x [E Hx]]. subst y.
    apply M; [left; reflexivity|right; exact Hx|].
    exact (proj1 (Forall_forall _ _) F x Hx).
Qed.

End PandasProps.

(** ** The statistics and classification engine *)

Module AnalysisProps.

Import Analysis FloatFacts.

(** C4. The dispersion class is a total function of the stability: every
    value gets one of the four labels; below 8 it is "Excellent", from 8
    to below 12 "Good", from 12 to below 15 "Moderate", from 15 on "Poor",
    and the values 8, 12 and 15 themselves give "Good", "Moderate" and
    "Poor"; the dispersion column of the mixing table is this class, row
    by row. *)
Theorem classify_dispersion_total (row : ComboRow) :
  let s := c_theta_gradient_med row in
  In (classify_dispersion row) ["Excellent"; "Good"; "Moderate"; "Poor"]
  /\ (forall combo,
        map dispersion_potential (calculate_mixing_metrics combo)
        = map classify_dispersion combo)
  /\ (PrimFloat.ltb s 8 = true -> classify_dispersion row = "Excellent")
  /\ (PrimFloat.leb 8 s = true -> PrimFloat.ltb s 12 = true ->
      classify_dispersion row = "Good")
  /\ (PrimFloat.leb 12 s = true -> PrimFloat.ltb s 15 = true ->
      classify_dispersion row = "Moderate")
  /\ (PrimFloat.leb 15 s = true -> classify_dispersion row = "Poor")
  /\ (PrimFloat.eqb s 8 = true -> classify_dispersion row = "Good")
  /\ (PrimFloat.eqb s 12 = true -> classify_dispersion row = "Moderate")
  /\ (PrimFloat.eqb s 15 = true -> classify_dispersion row = "Poor").
Proof.
  intros s. unfold classify_dispersion. fold s.
  assert (T812 : PrimFloat.ltb s 8 = true -> PrimFloat.ltb s 12 = true).
  { intros H. eapply ltb_trans_pos; [| |exact H|]; reflexivity. }
  assert (T1215 : PrimFloat.ltb s 12 = true -> PrimFloat.ltb s 15 = true).
  { intros H. eapply ltb_trans_pos; [| |exact H|]; reflexivity. }
  split.
  { destruct (PrimFloat.ltb s 8); [simpl; tauto|].
    destruct (PrimFloat.ltb s 12); [simpl; tauto|].
    destruct (PrimFloat.ltb s 15); simpl; tauto. }
  split.
  { intros combo. unfold calculate_mixing_metrics. rewrite map_map.
    reflexivity. }
  repeat split.
  - intros H. rewrite H. reflexivity.
  - intros H8 H12. rewrite (leb_not_gt _ _ H8), H12. reflexivity.
  - intros H12 H15. pose proof (leb_not_gt _ _ H12) as N12.
    destruct (PrimFloat.ltb s 8) eqn:E8.
    + pose proof (T812 eq_refl). congruence.
    + rewrite N12, H15. reflexivity.
  - intros H15. pose proof (leb_not_gt _ _ H15) as N15.
    destruct (PrimFloat.ltb s 12) eqn:E12.
    + pose proof (T1215 eq_refl). congruence.
    + destruct (PrimFloat.ltb s 8) eqn:E8.
      * pose proof (T812 eq_refl). congruence.
      * rewrite N15. reflexivity.
  - intros H. rewrite (eqb_finite_eq s 8 _ _ _ eq_refl H). reflexivity.
  - intros H. rewrite (eqb_finite_eq s 12 _ _ _ eq_refl H). reflexivity.
  - intros H. rewrite (eqb_finite_eq s 15 _ _ _ eq_refl H). reflexivity.
Qed.

Lemma classify_dispersion_total_witness :
  classify_dispersion (sample_row 13.5 0.35 0.1 0.7 75 0.45) = "Moderate".
Proof.
  apply (proj1 (proj2 (proj2 (proj2 (proj2
           (classify_dispersion_total
              (sample_row 13.5 0.35 0.1 0.7 75 0.45)))))));
    reflexivity.
Defined.

(** C5. A row is a high-pollution episode exactly when its stability is
    above 12 and its fine optical depth above 0.3, and stagnant exactly
    when its stability is above 12 and its humidity above 70; the episode
    table holds the rows of the first kind, each with its own stagnation
    flag; stability 13, fine depth 0.35 and humidity 75 give both flags. *)
Theorem episode_flags (row : ComboRow) :
  (high_pollution_episode row = true <->
     gt (c_theta_gradient_med row) 12 = true
     /\ gt (c_Fine_Mode_AOD_500nm row) 0.3 = true)
  /\ (stagnant_conditions row = true <->
        gt (c_theta_gradient_med row) 12 = true
        /\ gt (c_rh_850_med row) 70 = true)
  /\ (forall combo e,
        In e (identify_high_pollution_episodes combo) <->
        exists r, In r combo /\ high_pollution_episode r = true
                  /\ e = episode_of r)
  /\ e_stagnant_conditions (episode_of row) = stagnant_conditions row
  /\ (c_theta_gradient_med row = 13%float ->
      c_Fine_Mode_AOD_500nm row = 0.35%float ->
      c_rh_850_med row = 75%float ->
      high_pollution_episode row = true /\ stagnant_conditions row = true).
Proof.
  unfold high_pollution_episode, stagnant_conditions,
    STRONG_INVERSION_THRESHOLD, HIGH_FINE_AOD_THRESHOLD, HIGH_RH_THRESHOLD.
  repeat split; try (apply andb_true_iff; assumption);
    try (apply andb_true_iff in H; tauto).
  - unfold identify_high_pollution_episodes. intros H.
    apply in_map_iff in H. destruct H as [r0 [E I]].
    apply filter_In in I. exists r0.
    unfold high_pollution_episode, STRONG_INVERSION_THRESHOLD,
      HIGH_FINE_AOD_THRESHOLD in I. intuition.
  - intros [r0 [I [Hh E]]]. subst e.
    unfold identify_high_pollution_episodes. apply in_map.
    apply filter_In. split; [exact I|exact Hh].
  - rewrite H, H0. reflexivity.
  - rewrite H, H1. reflexivity.
Qed.

Lemma episode_flags_witness :
  high_pollution_episode (sample_row 13 0.35 0.1 0.7 75 0.45) = true
  /\ stagnant_conditions (sample_row 13 0.35 0.1 0.7 75 0.45) = true.
Proof.
  apply (proj2 (proj2 (proj2 (proj2
           (episode_flags (sample_row 13 0.35 0.1 0.7 75 0.45))))));
    reflexivity.
Defined.

(** C10. A comparison with a missing value is false, so a row without
    stability has neither flag, a row without fine optical depth is no
    high-pollution episode, a row without humidity is not stagnant, and no
    row without stability or fine optical depth is kept in the episode
    table. *)
Theorem missing_values_never_flag (row : ComboRow) :
  (forall x c : float,
     isnan x = true -> gt x c = false /\ gt c x = false)
  /\ (isnan (c_theta_gradient_med row) = true ->
      high_pollution_episode row = false
      /\ stagnant_conditions row = false)
  /\ (isnan (c_Fine_Mode_AOD_500nm row) = true ->
      high_pollution_episode row = false)
  /\ (isnan (c_rh_850_med row) = true -> stagnant_conditions row = false)
  /\ (forall combo,
        isnan (c_theta_gradient_med row) = true
        \/ isnan (c_Fine_Mode_AOD_500nm row) = true ->
        ~ In row (filter high_pollution_episode combo)
        /\ ~ In (episode_of row) (identify_high_pollution_episodes combo)).
Proof.
  assert (G : forall x c : float, isnan x = true -> gt x c = false).
  { intros x c H. apply is_nan_eq in H. subst x. apply ltb_nan_r. }
  assert (G' : forall x c : float, isnan x = true -> gt c x = false).
  { intros x c H. apply is_nan_eq in H. subst x. apply ltb_nan_l. }
  assert (Ht : isnan (c_theta_gradient_med row) = true ->
               high_pollution_episode row = false
               /\ stagnant_conditions row = false).
  { intros H. unfold high_pollution_episode, stagnant_conditions.
    rewrite (G _ _ H). split; reflexivity. }
  assert (Hf : isnan (c_Fine_Mode_AOD_500nm row) = true ->
               high_pollution_episode row = false).
  { intros H. unfold high_pollution_episode.
    rewrite (G _ HIGH_FINE_AOD_THRESHOLD H). apply andb_false_r. }
  assert (Hh : isnan (c_theta_gradient_med row) = true
               \/ isnan (c_Fine_Mode_AOD_500nm row) = true ->
               high_pollution_episode row = false).
  { intros [H|H]; [apply (Ht H)|apply (Hf H)]. }
  split; [intros x c H; split; [apply G|apply G']; exact H|].
  repeat split; try assumption; try (apply Ht; assumption).
  - intros H. unfold stagnant_conditions.
    rewrite (G _ HIGH_RH_THRESHOLD H). apply andb_false_r.
  - intros I. apply filter_In in I. rewrite (Hh H) in I.
    destruct I; discriminate.
  - unfold identify_high_pollution_episodes. intros I.
    apply in_map_iff in I. destruct I as [r0 [E I]].
    apply filter_In in I. destruct I as [_ I].
    assert (Et : c_theta_gradient_med r0 = c_theta_gradient_med row)
      by exact (f_equal e_theta_gradient_med E).
    assert (Ef : c_Fine_Mode_AOD_500nm r0 = c_Fine_Mode_AOD_500nm row)
      by exact (f_equal e_Fine_Mode_AOD_500nm E).
    unfold high_pollution_episode in I.
    rewrite Et, Ef in I.
    fold (high_pollution_episode row) in I. rewrite (Hh H) in I.
    discriminate.
Qed.

Lemma missing_values_never_flag_witness :
  high_pollution_episode (sample_row nan 0.35 0.1 0.7 75 0.45) = false
  /\ stagnant_conditions (sample_row nan 0.35 0.1 0.7 75 0.45) = false.
Proof.
  apply (proj1 (proj2
           (missing_values_never_flag
              (sample_row nan 0.35 0.1 0.7 75 0.45))));
    reflexivity.
Defined.

(** C6, as the specification words it, fails on the label text: at a
    fine fraction of 0.55 the label is not the bare word "Mixed". *)
Lemma attribute_source_label_counterexample :
  attribute_source (sample_row 9 0.2 0.1 0.55 55 0.3)
  = "Mixed (combustion + dust)"
  /\ attribute_source (sample_row 9 0.2 0.1 0.55 55 0.3) <> "Mixed".
Proof. split; [reflexivity|discriminate]. Qed.

(** C6, amended. The source label is "Unknown" when the fine fraction is
    missing, "Combustion-dominated (urban/biomass)" when it is above 0.6,
    "Mixed (combustion + dust)" when it is above 0.4 but not above 0.6,
    and "Dust-dominated (natural)" otherwise; 0.55 gives the mixed label
    and 0.65 the combustion label; the columns of the cross-table are
    among these four labels. *)
Theorem attribute_source_labels (row : ComboRow) :
  let f := c_FineModeFraction_500nm row in
  (forall combo label,
     In label (ct_columns (aerosol_source_attribution combo)) ->
     In label ["Unknown"; "Combustion-dominated (urban/biomass)";
               "Mixed (combustion + dust)"; "Dust-dominated (natural)"])
  /\ (isnan f = true -> attribute_source row = "Unknown")
  /\ (gt f 0.6 = true ->
      attribute_source row = "Combustion-dominated (urban/biomass)")
  /\ (gt f 0.4 = true -> gt f 0.6 = false ->
      attribute_source row = "Mixed (combustion + dust)")
  /\ (isnan f = false -> gt f 0.4 = false ->
      attribute_source row = "Dust-dominated (natural)")
  /\ (f = 0.55%float -> attribute_source row = "Mixed (combustion + dust)")
  /\ (f = 0.65%float ->
      attribute_source row = "Combustion-dominated (urban/biomass)").
Proof.
  intros f. split.
  { intros combo label H.
    unfold aerosol_source_attribution, crosstab in H. simpl in H.
    apply PandasProps.group_keys_In in H. destruct H as [[i c] [I E]].
    simpl in E. subst c. apply in_flat_map in I.
    destruct I as [r0 [_ I]].
    destruct (season_of_month (ts_month (c_month r0))); [|destruct I].
    destruct I as [I|[]]. injection I as _ I. subst label.
    unfold attribute_source.
    destruct (isnan (c_FineModeFraction_500nm r0)); [simpl; tauto|].
    destruct (gt (c_FineModeFraction_500nm r0) 0.6); [simpl; tauto|].
    destruct (gt (c_FineModeFraction_500nm r0) 0.4); simpl; tauto. }
  unfold attribute_source. fold f. unfold gt, isnan.
  repeat split.
  - intros H. rewrite H. reflexivity.
  - intros H. rewrite (ltb_not_nan_r _ _ H), H. reflexivity.
  - intros H4 H6. rewrite (ltb_not_nan_r _ _ H4), H6, H4. reflexivity.
  - intros Hn H4. rewrite Hn, H4.
    destruct (PrimFloat.ltb 0.6 f) eqn:H6; [|reflexivity].
    assert (T : PrimFloat.ltb 0.4 f = true).
    { eapply ltb_trans_pos_l; [| | |exact H6]; reflexivity. }
    congruence.
  - intros H. rewrite H. reflexivity.
  - intros H. rewrite H. reflexivity.
Qed.

Lemma attribute_source_labels_witness :
  attribute_source (sample_row 9 0.2 0.1 0.65 55 0.3)
  = "Combustion-dominated (urban/biomass)".
Proof.
  apply (proj1 (proj2 (proj2
           (attribute_source_labels (sample_row 9 0.2 0.1 0.65 55 0.3)))));
    reflexivity.
Defined.

Section CorrelationProps.

Variable pearsonr : list float -> list float -> float * float.
Variable round_to : float -> Z -> float.

(** C1, amended. The rows that miss any of the six columns (stability,
    fine, coarse and total optical depth, fine fraction, humidity) are
    dropped once for all four pairs; with at least three rows left the
    result holds the four pairs, each computed over the rows left, and
    with fewer it holds no pair at all. *)
Theorem correlations_listwise (combo : list ComboRow) :
  let clean := dropna combo in
  let result := calculate_correlations pearsonr round_to combo in
  (forall row, In row clean <->
               In row combo
               /\ Forall (fun x => isnan x = false) (clean_columns row))
  /\ (forall key, pair_columns key <> None ->
                  (In key (map fst result) <-> (3 <= List.length clean)%nat))
  /\ ((List.length clean < 3)%nat -> result = [])
  /\ ((3 <= List.length clean)%nat ->
      result =
      [ ("stability_vs_fine_aod",
         correlate pearsonr round_to (map c_theta_gradient_med clean)
           (map c_Fine_Mode_AOD_500nm clean));
        ("stability_vs_coarse_aod",
         correlate pearsonr round_to (map c_theta_gradient_med clean)
           (map c_Coarse_Mode_AOD_500nm clean));
        ("stability_vs_fine_fraction",
         correlate pearsonr round_to (map c_theta_gradient_med clean)
           (map c_FineModeFraction_500nm clean));
        ("humidity_vs_fine_aod",
         correlate pearsonr round_to (map c_rh_850_med clean)
           (map c_Fine_Mode_AOD_500nm clean)) ]).
Proof.
  intros clean result.
  assert (Few : (List.length clean < 3)%nat -> result = []).
  { intros H. unfold result, calculate_correlations. fold clean.
    destruct (2 <? Z.of_nat (List.length clean)) eqn:E; [|reflexivity].
    apply Z.ltb_lt in E. lia. }
  assert (Many : (3 <= List.length clean)%nat ->
                 map fst result
                 = [ "stability_vs_fine_aod"; "stability_vs_coarse_aod";
                     "stability_vs_fine_fraction"; "humidity_vs_fine_aod" ]).
  { intros H. unfold result, calculate_correlations. fold clean.
    destruct (2 <? Z.of_nat (List.length clean)) eqn:E; [reflexivity|].
    apply Z.ltb_ge in E. lia. }
  split; [|split; [|split; [exact Few|]]].
  3: { intros H. unfold result, calculate_correlations. fold clean.
       destruct (2 <? Z.of_nat (List.length clean)) eqn:E; [reflexivity|].
       apply Z.ltb_ge in E. lia. }
  - intros row. unfold clean, dropna. rewrite filter_In, forallb_forall,
      Forall_forall.
    split; intros [I H]; (split; [exact I|]); intros x Hx;
      specialize (H x Hx).
    + apply negb_true_iff in H. exact H.
    + apply negb_true_iff. exact H.
  - intros key Hk. split.
    + intros I.
      destruct (Nat.lt_ge_cases (List.length clean) 3) as [L|L];
        [|exact L].
      rewrite (Few L) in I. destruct I.
    + intros L. rewrite (Many L). unfold pair_columns in Hk. simpl.
      destruct (String.eqb_spec key "stability_vs_fine_aod");
        [subst; tauto|].
      destruct (String.eqb_spec key "stability_vs_coarse_aod");
        [subst; tauto|].
      destruct (String.eqb_spec key "stability_vs_fine_fraction");
        [subst; tauto|].
      destruct (String.eqb_spec key "humidity_vs_fine_aod");
        [subst; tauto|].
      congruence.
Qed.

End CorrelationProps.

Lemma correlations_listwise_witness :
  map fst
    (calculate_correlations (fun _ _ => (0.5, 0.01)%float) (fun x _ => x)
       combo_complete)
  = [ "stability_vs_fine_aod"; "stability_vs_coarse_aod";
      "stability_vs_fine_fraction"; "humidity_vs_fine_aod" ].
Proof.
  rewrite (proj2 (proj2 (proj2
             (correlations_listwise (fun _ _ => (0.5, 0.01)%float)
                (fun x _ => x) combo_complete))));
    [reflexivity|].
  vm_compute. lia.
Defined.

(** C1, as the specification words it, fails: in [combo_humidity_gap]
    stability and fine optical depth are paired in all three months (only
    a humidity is missing), and the result holds no pair, whatever the
    correlation routine returns. *)
Lemma correlations_pairwise_counterexample :
  pair_columns "stability_vs_fine_aod"
  = Some (c_theta_gradient_med, c_Fine_Mode_AOD_500nm)
  /\ List.length (paired_observations c_theta_gradient_med
                    c_Fine_Mode_AOD_500nm combo_humidity_gap) = 3%nat
  /\ (forall pearsonr round_to,
        ~ In "stability_vs_fine_aod"
            (map fst
               (calculate_correlations pearsonr round_to
                  combo_humidity_gap))).
Proof. repeat split. intros pearsonr round_to H. exact H. Qed.

End AnalysisProps.

(** ** The sounding parser and the potential temperature *)

Module ParserProps.

Import NearSpace FloatFacts.

Section WithPow.

Variable libm_pow : float -> float -> float.

(** C9. For a positive pressure the potential temperature is the product
    of the temperature in kelvin, [temp_c + 273.15], and the power
    [(1000 / pressure_hpa) ** 0.2854], which is the C library's [pow] of
    that quotient and 0.2854 unless the quotient is 1, 0 or infinite
    (Python settles these itself) or the power is infinite
    ([OverflowError]); at 1000 hPa it is [temp_c + 273.15] itself, bit for
    bit; at a pressure of zero there is no value but a
    [ZeroDivisionError]. *)
Theorem potential_temperature_poisson (temp_c pressure_hpa : float) :
  let temp_k := (temp_c + 273.15)%float in
  let ratio := (1000 / pressure_hpa)%float in
  let w := libm_pow ratio 0.2854%float in
  (PrimFloat.ltb 0 pressure_hpa = true ->
   _potential_temperature libm_pow temp_c pressure_hpa
   = if PrimFloat.is_infinity ratio then Ok (temp_k * infinity)%float
     else if PrimFloat.eqb ratio 0 then Ok (temp_k * 0)%float
     else if PrimFloat.eqb ratio 1 then Ok temp_k
     else if PrimFloat.is_infinity w then Raise OverflowError
     else Ok (temp_k * w)%float)
  /\ _potential_temperature libm_pow temp_c 1000 = Ok temp_k
  /\ (PrimFloat.eqb pressure_hpa 0 = true ->
      _potential_temperature libm_pow temp_c pressure_hpa
      = Raise ZeroDivisionError).
Proof.
  intros temp_k ratio w. unfold _potential_temperature, truediv.
  split; [|split].
  - intros Hp. rewrite (ltb_not_eq _ _ Hp). cbn [bind].
    destruct (div_positive 1000 pressure_hpa _ _ eq_refl Hp) as [N L].
    fold ratio in N, L |- *. unfold pow_fractional. rewrite N.
    destruct (PrimFloat.is_infinity ratio); [reflexivity|].
    destruct (PrimFloat.eqb ratio 0); [reflexivity|].
    rewrite L.
    destruct (PrimFloat.eqb ratio 1);
      [cbn [bind]; fold temp_k; rewrite mul_1_r; reflexivity|].
    fold w. destruct (PrimFloat.is_infinity w); reflexivity.
  - simpl. fold temp_k. rewrite mul_1_r. reflexivity.
  - intros H. rewrite H. reflexivity.
Qed.

(** *** The cursor *)

Lemma skip_levels_length (n : nat) (h : handle) :
  (List.length (skip_levels n h) <= List.length h)%nat.
Proof.
  revert h. induction n as [|n IH]; intros h; simpl; [lia|].
  destruct h as [|line rest]; simpl.
  - apply (IH []).
  - specialize (IH rest). lia.
Qed.


Lemma bind_ok {A B : Type} (m : result A) (k : A -> result B) (b : B) :
  bind m k = Ok b -> exists a, m = Ok a /\ k a = Ok b.
Proof.
  destruct m as [a|e]; simpl; [|discriminate]. intros H. exists a. tauto.
Qed.

Lemma read_levels_length (n : nat) (h h' : handle) (s s' : level_store) :
  read_levels n h s = Ok (h', s') ->
  (List.length h' <= List.length h)%nat.
Proof.
  revert h s. induction n as [|n IH]; intros h s; simpl.
  - intros H. inversion H. lia.
  - destruct h as [|line rest]; simpl.
    + intros H. inversion H. simpl. lia.
    + destruct (line =? "")%string.
      * intros H. inversion H. simpl. lia.
      * intros H.
        apply bind_ok in H. destruct H as [lvl [_ H]].
        apply bind_ok in H. destruct H as [pressure [_ H]].
        apply bind_ok in H. destruct H as [gph [_ H]].
        apply bind_ok in H. destruct H as [temp [_ H]].
        apply bind_ok in H. destruct H as [rh [_ H]].
        destruct pressure as [p|]; [destruct lvl as [t|]|].
        -- repeat (apply bind_ok in H; destruct H as [? [_ H]]).
           apply IH in H. lia.
        -- apply IH in H. lia.
        -- apply IH in H. lia.
Qed.

(** A turn that goes on leaves fewer lines to read. *)
Lemma turn_shrinks (h h' : handle) (records records' : list Sounding) :
  turn libm_pow h records = Ok (Some (h', records')) ->
  (List.length h' < List.length h)%nat.
Proof.
  unfold turn. destruct h as [|header rest]; simpl; [discriminate|].
  destruct (header =? "")%string; [discriminate|].
  destruct (prefix "#" header); simpl.
  - intros H. apply bind_ok in H. destruct H as [hd [_ H]].
    destruct (negb (truthy (h_year hd) && truthy (h_month hd)
                    && truthy (h_day hd))).
    + inversion H. subst.
      pose proof (skip_levels_length (Z.to_nat (h_num_levels hd)) rest).
      lia.
    + apply bind_ok in H. destruct H as [ts [_ H]].
      apply bind_ok in H. destruct H as [[h1 s1] [L H]].
      apply read_levels_length in L.
      apply bind_ok in H. destruct H as [rec [_ H]]. simpl in H.
      destruct rec; inversion H; subst; lia.
  - intros H. inversion H. lia.
Qed.

(** The loop ends: with more turns allowed than there are lines left it
    gives a result, and allowing still more does not change it. *)
Lemma parse_loop_total (fuel : nat) (h : handle) (records : list Sounding) :
  (List.length h < fuel)%nat ->
  exists out, parse_loop libm_pow fuel h records = Some out.
Proof.
  revert h records. induction fuel as [|fuel IH]; intros h records L;
    [lia|].
  simpl. destruct (turn libm_pow h records) as [[[h' records']|]|e] eqn:T.
  - apply IH. apply turn_shrinks in T. lia.
  - eexists. reflexivity.
  - eexists. reflexivity.
Qed.

Lemma parse_loop_more (fuel fuel' : nat) (h : handle)
  (records : list Sounding) (out : result (list Sounding)) :
  parse_loop libm_pow fuel h records = Some out ->
  (fuel <= fuel')%nat ->
  parse_loop libm_pow fuel' h records = Some out.
Proof.
  revert fuel' h records. induction fuel as [|fuel IH];
    intros fuel' h records; simpl; [discriminate|].
  intros H L. destruct fuel' as [|fuel']; [lia|]. simpl.
  destruct (turn libm_pow h records) as [[[h' records']|]|e];
    [|exact H|exact H].
  apply IH; [exact H|lia].
Qed.

Lemma read_records_total (lines : list string) :
  exists out, read_records libm_pow lines = Some out.
Proof. apply parse_loop_total. lia. Qed.

(** Parsing a file always ends, with a frame or with an exception. *)
Lemma parse_igra_soundings_total (lines : list string) :
  exists out, parse_igra_soundings libm_pow lines = Some out.
Proof.
  unfold parse_igra_soundings.
  destruct (read_records_total lines) as [out H]. rewrite H.
  eexists. reflexivity.
Qed.


End WithPow.


Lemma potential_temperature_poisson_witness :
  (forall libm_pow,
     _potential_temperature libm_pow 10 925
     = if PrimFloat.is_infinity (libm_pow (1000 / 925) 0.2854)%float
       then Raise OverflowError
       else Ok ((10 + 273.15) * libm_pow (1000 / 925) 0.2854)%float)
  /\ (forall libm_pow,
        _potential_temperature libm_pow 10 1000 = Ok (10 + 273.15)%float).
Proof.
  split; intros libm_pow.
  - exact (proj1 (potential_temperature_poisson libm_pow 10 925) eq_refl).
  - exact (proj1 (proj2 (potential_temperature_poisson libm_pow 10 1000))).
Defined.

(** C9, as the specification words it, fails at a pressure that is
    present but zero: the function returns no value there, it raises
    [ZeroDivisionError], whatever the temperature. *)
Lemma potential_temperature_zero_pressure_counterexample :
  isnan 0 = false
  /\ (forall libm_pow temp_c,
        _potential_temperature libm_pow temp_c 0 = Raise ZeroDivisionError).
Proof. split; [reflexivity|]. intros libm_pow temp_c. reflexivity. Qed.


(** The hour of the timestamp, where the code does normalise it: an
    absent hour and an hour above 23 become 0, an hour from 0 to 23 is
    kept. *)
Lemma header_hour_normalized (hour : option Z) :
  (hour = None -> header_hour hour = 0)
  /\ (forall h, hour = Some h -> 23 < h -> header_hour hour = 0)
  /\ (forall h, hour = Some h -> 0 <= h <= 23 -> header_hour hour = h)
  /\ (forall h, hour = Some h -> h < 0 -> header_hour hour = h).
Proof.
  repeat split; intros; subst; unfold header_hour;
    try reflexivity;
    destruct (Z.leb_spec h 23); try reflexivity; lia.
Qed.

(** C7 fails at a negative hour: the header [header_hour_minus_one] has a
    complete, valid date and the hour -1; the guard [hour <= 23] lets -1
    through, [pd.Timestamp] raises [ValueError], and the parse ends with
    that exception instead of a timestamp at hour 0. *)
Theorem negative_hour_raises :
  decode_header header_hour_minus_one
  = Ok (mkHeader (Some 2020) (Some 1) (Some 15) (Some (-1)) 0)
  /\ header_hour (Some (-1)) = -1
  /\ pd_Timestamp 2020 1 15 (header_hour (Some (-1))) = Raise ValueError
  /\ pd_Timestamp 2020 1 15 0 = Ok (mkTimestamp 2020 1 15 0)
  /\ (forall libm_pow,
        read_records libm_pow [header_hour_minus_one]
        = Some (Raise ValueError)).
Proof. repeat split. Qed.

End ParserProps.

(** ** Monthly and seasonal keys, and the merged table *)

Module AggregationProps.

Import NearSpace PandasProps.

(** *** The order of text *)

Lemma string_leb_refl (s : string) : String.leb s s = true.
Proof.
  unfold String.leb.
  assert (E : String.compare s s = Eq).
  { induction s as [|c s IH]; simpl; [reflexivity|].
    unfold Ascii.compare. rewrite N.compare_refl. exact IH. }
  rewrite E. reflexivity.
Qed.

Lemma string_compare_trans (s1 s2 s3 : string) :
  String.compare s1 s2 <> Gt -> String.compare s2 s3 <> Gt ->
  String.compare s1 s3 <> Gt.
Proof.
  revert s2 s3. induction s1 as [|a s1 IH]; intros [|b s2] [|c s3]; simpl;
    try congruence.
  unfold Ascii.compare.
  destruct (N.compare_spec (N_of_ascii a) (N_of_ascii b)) as [E1|L1|G1],
    (N.compare_spec (N_of_ascii b) (N_of_ascii c)) as [E2|L2|G2],
    (N.compare_spec (N_of_ascii a) (N_of_ascii c)) as [E3|L3|G3];
    try congruence; try lia.
  apply IH.
Qed.

Lemma string_leb_trans (a b c : string) :
  String.leb a b = true -> String.leb b c = true -> String.leb a c = true.
Proof.
  unfold String.leb. intros H1 H2.
  pose proof (string_compare_trans a b c) as T.
  destruct (String.compare a b); try discriminate;
    destruct (String.compare b c); try discriminate;
    destruct (String.compare a c); try reflexivity;
    exfalso; apply T; congruence.
Qed.

Lemma string_eqb_true (a b : string) : String.eqb a b = true -> a = b.
Proof. apply String.eqb_eq. Qed.

(** *** The order of months *)

Lemma period_eqb_eq (p q : Period) : period_eqb p q = true -> p = q.
Proof.
  destruct p as [y m], q as [y' m']. unfold period_eqb. simpl.
  intros H. apply andb_true_iff in H. destruct H as [Hy Hm].
  apply Z.eqb_eq in Hy, Hm. congruence.
Qed.

Lemma period_leb_total (p q : Period) :
  period_leb p q = false -> period_leb q p = true.
Proof.
  unfold period_leb. intros H. apply Z.leb_gt in H. apply Z.leb_le. lia.
Qed.

Lemma period_leb_trans (p q r : Period) :
  period_leb p q = true -> period_leb q r = true -> period_leb p r = true.
Proof.
  unfold period_leb. rewrite !Z.leb_le. lia.
Qed.

(** The text of a month is ordered like the month over the whole
    calendar: checked month by month, from 0001-01 to 9999-12. *)
Lemma zrange_In (n : nat) (start z : Z) :
  start <= z < start + Z.of_nat n -> In z (zrange n start).
Proof.
  revert start. induction n as [|n IH]; intros start H; [lia|].
  simpl. destruct (Z.eq_dec start z) as [E|N]; [left; exact E|].
  right. apply IH. lia.
Qed.

Lemma steps_ordered :
  forallb step_ordered (zrange (Z.to_nat 119987) 0) = true.
Proof. vm_compute. reflexivity. Qed.

Lemma floors_agree :
  forallb floor_agrees (zrange (Z.to_nat 119988) 0) = true.
Proof. vm_compute. reflexivity. Qed.

Lemma month_index (p : Period) :
  calendar_month p = true ->
  exists i, 0 <= i < 119988 /\ month_of_index i = p
            /\ i = ordinal p - 12.
Proof.
  destruct p as [y m]. unfold calendar_month, ordinal. simpl.
  rewrite !andb_true_iff, !Z.leb_le. intros [[[Y1 Y2] M1] M2].
  exists ((y - 1) * 12 + (m - 1)).
  split; [lia|]. split; [|lia].
  unfold month_of_index.
  rewrite <- (Z.div_unique_pos ((y - 1) * 12 + (m - 1)) 12
                (y - 1) (m - 1)) by lia.
  rewrite <- (Z.mod_unique_pos ((y - 1) * 12 + (m - 1)) 12
                (y - 1) (m - 1)) by lia.
  f_equal; lia.
Qed.

Lemma month_index_step (i : Z) :
  0 <= i < 119987 ->
  String.leb (period_str (month_of_index i))
    (period_str (month_of_index (i + 1))) = true.
Proof.
  intros H.
  apply (proj1 (forallb_forall _ _) steps_ordered i).
  apply zrange_In. rewrite Z2Nat.id; lia.
Qed.

Lemma month_index_ordered (i : Z) (n : nat) :
  0 <= i -> i + Z.of_nat n < 119988 ->
  String.leb (period_str (month_of_index i))
    (period_str (month_of_index (i + Z.of_nat n))) = true.
Proof.
  intros Hi. induction n as [|n IH]; intros B.
  - rewrite Z.add_0_r. apply string_leb_refl.
  - apply (string_leb_trans _
             (period_str (month_of_index (i + Z.of_nat n)))).
    + apply IH. lia.
    + replace (i + Z.of_nat (S n)) with (i + Z.of_nat n + 1) by lia.
      apply month_index_step. lia.
Qed.

Lemma period_str_ordered (p q : Period) :
  calendar_month p = true -> calendar_month q = true ->
  period_leb p q = true ->
  String.leb (period_str p) (period_str q) = true.
Proof.
  intros Vp Vq L.
  destruct (month_index p Vp) as [i [Bi [Ei Oi]]].
  destruct (month_index q Vq) as [j [Bj [Ej Oj]]].
  rewrite <- Ei, <- Ej.
  unfold period_leb in L. apply Z.leb_le in L.
  replace j with (i + Z.of_nat (Z.to_nat (j - i))) by lia.
  apply month_index_ordered; lia.
Qed.

Lemma period_str_floor (p : Period) :
  calendar_month p = true ->
  String.leb "2010-01" (period_str p) = period_leb floor_month p.
Proof.
  intros Vp. destruct (month_index p Vp) as [i [Bi [Ei _]]].
  rewrite <- Ei. apply Bool.eqb_prop.
  apply (proj1 (forallb_forall _ _) floors_agree i).
  apply zrange_In. rewrite Z2Nat.id; lia.
Qed.

(** December 999: the year is written with four digits, and the text is
    below the floor of the merged table, as the month is. *)
Lemma december_999_below_floor :
  period_str (mkPeriod 999 12) = "0999-12"
  /\ String.leb "2010-01" (period_str (mkPeriod 999 12)) = false
  /\ period_leb floor_month (mkPeriod 999 12) = false.
Proof. repeat split. Qed.

Section WithStatistics.

Variable median : list float -> float.
Variable quantile : list float -> float -> float.


(** The merged table over a frame whose timestamps lie in the calendar:
    months of all three sources, none before the floor, ascending. *)
Lemma merged_months_calendar (igra_df : list Sounding)
  (aod_monthly : list AodRow) (sda_monthly : list SdaRow) :
  Forall (fun r => calendar_month (to_period (datetime r)) = true)
    igra_df ->
  let tables := main median quantile igra_df aod_monthly sda_monthly in
  let merged := near_space_monthly_combo tables in
  (forall row, In row merged ->
     In (month row)
       (map (fun r => period_str (to_period (datetime r))) igra_df)
     /\ In (month row) (map (fun a => period_str (aod_month a)) aod_monthly)
     /\ In (month row) (map (fun s => period_str (sda_month s)) sda_monthly)
     /\ String.leb "2010-01" (month row) = true
     /\ (exists r, In r igra_df
                   /\ month row = period_str (to_period (datetime r))
                   /\ period_leb floor_month (to_period (datetime r)) = true)
     /\ In (month row, sounding_metrics row) (igra_monthly_metrics tables)
     /\ In (optical_depth row) aod_monthly
     /\ In (deconvolution row) sda_monthly
     /\ month row = period_str (aod_month (optical_depth row))
     /\ month row = period_str (sda_month (deconvolution row)))
  /\ StronglySorted (fun a b => String.leb a b = true) (map month merged).
Proof.
  intros V tables merged. split.
  - intros row I. unfold merged, tables, main in I. simpl in I.
    unfold merge_combo in I. apply filter_In in I. destruct I as [I Floor].
    apply in_map_iff in I. destruct I as [[[m g] [m' [a s0]]] [E I]].
    simpl in E. subst row. simpl in *.
    apply merge_inner_In in I. simpl in I. destruct I as [Il [Ir Em]].
    apply string_eqb_true in Em. subst m'.
    (* the sounding side *)
    assert (Il' := Il). unfold compute_monthly_metrics, groupby in Il'.
    rewrite map_map in Il'. simpl in Il'. apply in_map_iff in Il'.
    destruct Il' as [k [Ek Ik]]. injection Ek as Em Eg.
    apply group_keys_In in Ik. destruct Ik as [r0 [I0 K0]].
    (* the aerosol side *)
    unfold aerosol_monthly in Ir. apply in_map_iff in Ir.
    destruct Ir as [[a' s'] [Ea Ir]]. simpl in Ea.
    injection Ea as Em2 Ea' Es'. subst a' s'.
    apply sort_values_In in Ir. apply merge_inner_In in Ir.
    destruct Ir as [Ia [Is Eas]]. apply period_eqb_eq in Eas.
    assert (V0 : calendar_month (to_period (datetime r0)) = true)
      by exact (proj1 (Forall_forall _ _) V r0 I0).
    assert (E0 : m = period_str (to_period (datetime r0))) by congruence.
    assert (E1 : m = period_str (aod_month a)) by congruence.
    assert (E2 : m = period_str (sda_month s0)) by congruence.
    split; [apply in_map_iff; exists r0; split; [congruence|exact I0]|].
    split; [apply in_map_iff; exists a; split; [congruence|exact Ia]|].
    split; [apply in_map_iff; exists s0; split; [congruence|exact Is]|].
    split; [exact Floor|].
    split.
    { exists r0. split; [exact I0|]. split; [exact E0|].
      rewrite <- (period_str_floor _ V0), <- E0. exact Floor. }
    split; [exact Il|].
    split; [exact Ia|].
    split; [exact Is|].
    split; [exact E1|exact E2].
  - unfold merged, tables, main. simpl. unfold merge_combo.
    apply StronglySorted_filter_map. rewrite map_map. simpl.
    apply (merge_inner_sorted fst fst String.eqb
             (fun a b => String.leb a b = true) string_leb_refl).
    unfold compute_monthly_metrics, groupby. rewrite !map_map. simpl.
    apply (StronglySorted_map_mono
             (fun a b => period_leb a b = true)).
    + intros p q Ip Iq L.
      apply group_keys_In in Ip, Iq.
      destruct Ip as [rp [Ip Ep]], Iq as [rq [Iq Eq]]. subst p q.
      apply period_str_ordered; [| |exact L].
      * exact (proj1 (Forall_forall _ _) V rp Ip).
      * exact (proj1 (Forall_forall _ _) V rq Iq).
    + apply group_keys_sorted.
      * exact period_leb_total.
      * exact period_leb_trans.
Qed.

End WithStatistics.


End AggregationProps.

(** * Part III: further properties of the code *)

(** ** Decoding the text of an integer *)

Module TextProps.

Import Notions.

Lemma lstrip_id (l : list ascii) :
  Forall (fun c => isspace c = false) l -> lstrip l = l.
Proof.
  destruct l as [|c l]; [reflexivity|]. intros F. inversion F as [|? ? H _].
  simpl. rewrite H. reflexivity.
Qed.

Lemma strip_id (s : string) :
  Forall (fun c => isspace c = false) (list_ascii_of_string s) ->
  strip s = s.
Proof.
  intros F. unfold strip. rewrite (lstrip_id _ F).
  rewrite (lstrip_id _ (Forall_rev F)), rev_involutive.
  apply string_of_list_ascii_of_string.
Qed.

Lemma digits_not_space (d : Decimal.uint) :
  Forall (fun c => isspace c = false)
    (list_ascii_of_string (NilEmpty.string_of_uint d)).
Proof.
  induction d; simpl; constructor; try reflexivity; assumption.
Qed.

Lemma int_digits_step (c : ascii) (k acc : Z) (seen : bool)
  (rest : list ascii) :
  digit_of c = Some k ->
  int_digits acc seen (c :: rest) = int_digits (10 * acc + k) true rest.
Proof. intros H. simpl. rewrite H. reflexivity. Qed.

Lemma int_digits_acc (d : Decimal.uint) (acc : positive) :
  int_digits (Zpos acc) true
    (list_ascii_of_string (NilEmpty.string_of_uint d))
  = Some (Zpos (Pos.of_uint_acc d acc)).
Proof.
  revert acc.
  induction d as [|d IH|d IH|d IH|d IH|d IH|d IH|d IH|d IH|d IH|d IH];
    intros acc;
    cbn [NilEmpty.string_of_uint list_ascii_of_string Pos.of_uint_acc].
  - reflexivity.
  - rewrite (int_digits_step _ 0) by reflexivity.
    rewrite <- IH. f_equal; lia.
  - rewrite (int_digits_step _ 1) by reflexivity.
    rewrite <- IH. f_equal; lia.
  - rewrite (int_digits_step _ 2) by reflexivity.
    rewrite <- IH. f_equal; lia.
  - rewrite (int_digits_step _ 3) by reflexivity.
    rewrite <- IH. f_equal; lia.
  - rewrite (int_digits_step _ 4) by reflexivity.
    rewrite <- IH. f_equal; lia.
  - rewrite (int_digits_step _ 5) by reflexivity.
    rewrite <- IH. f_equal; lia.
  - rewrite (int_digits_step _ 6) by reflexivity.
    rewrite <- IH. f_equal; lia.
  - rewrite (int_digits_step _ 7) by reflexivity.
    rewrite <- IH. f_equal; lia.
  - rewrite (int_digits_step _ 8) by reflexivity.
    rewrite <- IH. f_equal; lia.
  - rewrite (int_digits_step _ 9) by reflexivity.
    rewrite <- IH. f_equal; lia.
Qed.

Lemma int_digits_uint (d : Decimal.uint) (seen : bool) :
  d <> Decimal.Nil \/ seen = true ->
  int_digits 0 seen (list_ascii_of_string (NilEmpty.string_of_uint d))
  = Some (Z.of_N (Pos.of_uint d)).
Proof.
  revert seen.
  induction d as [|d IH|d IH|d IH|d IH|d IH|d IH|d IH|d IH|d IH|d IH];
    intros seen H;
    cbn [NilEmpty.string_of_uint list_ascii_of_string Pos.of_uint].
  - destruct H as [H|H]; [congruence|]. subst. reflexivity.
  - rewrite (int_digits_step _ 0) by reflexivity. apply IH. right.
    reflexivity.
  - rewrite (int_digits_step _ 1) by reflexivity.
    apply (int_digits_acc d 1).
  - rewrite (int_digits_step _ 2) by reflexivity.
    apply (int_digits_acc d 2).
  - rewrite (int_digits_step _ 3) by reflexivity.
    apply (int_digits_acc d 3).
  - rewrite (int_digits_step _ 4) by reflexivity.
    apply (int_digits_acc d 4).
  - rewrite (int_digits_step _ 5) by reflexivity.
    apply (int_digits_acc d 5).
  - rewrite (int_digits_step _ 6) by reflexivity.
    apply (int_digits_acc d 6).
  - rewrite (int_digits_step _ 7) by reflexivity.
    apply (int_digits_acc d 7).
  - rewrite (int_digits_step _ 8) by reflexivity.
    apply (int_digits_acc d 8).
  - rewrite (int_digits_step _ 9) by reflexivity.
    apply (int_digits_acc d 9).
Qed.

Lemma int_literal_uint (d : Decimal.uint) :
  d <> Decimal.Nil ->
  int_literal (list_ascii_of_string (NilEmpty.string_of_uint d))
  = Some (Z.of_N (Pos.of_uint d)).
Proof.
  intros H. pose proof (int_digits_uint d false (or_introl H)) as E.
  unfold int_literal.
  destruct d; try congruence;
    cbn [NilEmpty.string_of_uint list_ascii_of_string] in *;
    rewrite E; reflexivity.
Qed.

Lemma NilZero_nonnil (d : Decimal.uint) :
  d <> Decimal.Nil -> NilZero.string_of_uint d = NilEmpty.string_of_uint d.
Proof. destruct d; [congruence|reflexivity..]. Qed.

(** The text of an integer is a literal of that integer. *)
Lemma int_literal_str_int (z : Z) :
  int_literal (list_ascii_of_string (str_int z)) = Some z.
Proof.
  unfold str_int. destruct z as [|p|p]; [reflexivity| |];
    cbn [Z.to_int NilZero.string_of_int];
    rewrite (NilZero_nonnil _ (DecimalPos.Unsigned.to_uint_nonnil p)).
  - rewrite (int_literal_uint _ (DecimalPos.Unsigned.to_uint_nonnil p)).
    rewrite DecimalPos.Unsigned.of_to. reflexivity.
  - cbn [list_ascii_of_string int_literal].
    rewrite (int_digits_uint _ false
               (or_introl (DecimalPos.Unsigned.to_uint_nonnil p))).
    rewrite DecimalPos.Unsigned.of_to. reflexivity.
Qed.

(** The characters of the text of a number are digits, the sign of a
    negative number apart. *)
Lemma uint_all_digits (d : Decimal.uint) :
  filter is_digit (list_ascii_of_string (NilEmpty.string_of_uint d))
  = list_ascii_of_string (NilEmpty.string_of_uint d).
Proof.
  induction d; cbn [NilEmpty.string_of_uint list_ascii_of_string filter];
    [reflexivity|..]; cbn [is_digit digit_of]; simpl; rewrite IHd;
    reflexivity.
Qed.

Lemma length_list_ascii (s : string) :
  List.length (list_ascii_of_string s) = String.length s.
Proof. induction s as [|c s IH]; simpl; [reflexivity|]. rewrite IH. reflexivity. Qed.

Lemma digits_of_str_int (z : Z) :
  Z.of_nat
    (List.length (filter is_digit (list_ascii_of_string (str_int z))))
  = digits z.
Proof.
  unfold digits, str_int. destruct z as [|p|p]; [reflexivity| |];
    cbn [Z.abs Z.to_int NilZero.string_of_int];
    rewrite (NilZero_nonnil _ (DecimalPos.Unsigned.to_uint_nonnil p)).
  - rewrite uint_all_digits, length_list_ascii. reflexivity.
  - cbn [list_ascii_of_string filter]. change (is_digit "-") with false.
    cbv iota. rewrite uint_all_digits, length_list_ascii. reflexivity.
Qed.

Lemma list_ascii_app (a b : string) :
  list_ascii_of_string (a ++ b)
  = (list_ascii_of_string a ++ list_ascii_of_string b)%list.
Proof. induction a as [|c a IH]; simpl; [reflexivity|]. rewrite IH. reflexivity. Qed.

Lemma lstrip_blanks (n : nat) (l : list ascii) :
  lstrip (repeat " "%char n ++ l) = lstrip l.
Proof. induction n as [|n IH]; simpl; [reflexivity|exact IH]. Qed.

Lemma str_int_chars (z : Z) :
  Forall (fun c => isspace c = false) (list_ascii_of_string (str_int z))
  /\ str_int z <> "".
Proof.
  unfold str_int. destruct z as [|p|p];
    cbn [Z.to_int NilZero.string_of_int].
  - split; [repeat constructor|discriminate].
  - rewrite (NilZero_nonnil _ (DecimalPos.Unsigned.to_uint_nonnil p)).
    split; [apply digits_not_space|].
    pose proof (DecimalPos.Unsigned.to_uint_nonnil p).
    destruct (Pos.to_uint p); [congruence|discriminate..].
  - rewrite (NilZero_nonnil _ (DecimalPos.Unsigned.to_uint_nonnil p)).
    split; [|discriminate].
    cbn [list_ascii_of_string]. constructor; [reflexivity|].
    apply digits_not_space.
Qed.

Lemma strip_padded (s : string) (n m : nat) :
  Forall (fun c => isspace c = false) (list_ascii_of_string s) ->
  s <> "" ->
  strip (blanks n ++ s ++ blanks m) = s.
Proof.
  intros F Hne. unfold strip, blanks.
  rewrite !list_ascii_app, !list_ascii_of_string_of_list_ascii.
  rewrite lstrip_blanks.
  destruct (list_ascii_of_string s) as [|c l] eqn:E.
  - exfalso. apply Hne.
    rewrite <- (string_of_list_ascii_of_string s), E. reflexivity.
  - assert (L : lstrip ((c :: l) ++ repeat " "%char m)
                = ((c :: l) ++ repeat " "%char m)%list).
    { simpl. inversion F as [|? ? H _]. rewrite H. reflexivity. }
    rewrite L, rev_app_distr.
    assert (R : List.rev (repeat " "%char m) = repeat " "%char m).
    { clear. induction m as [|m IH]; [reflexivity|].
      simpl. rewrite IH. clear IH.
      induction m as [|m IH]; [reflexivity|]. simpl. rewrite IH.
      reflexivity. }
    rewrite R, lstrip_blanks.
    rewrite (lstrip_id _ (Forall_rev F)), rev_involutive.
    rewrite <- E. apply string_of_list_ascii_of_string.
Qed.

Lemma str_int_inj (z z' : Z) : str_int z = str_int z' -> z = z'.
Proof.
  intros H. pose proof (int_literal_str_int z) as E.
  rewrite H, int_literal_str_int in E. congruence.
Qed.

(** [int] reads back the decimal text of an integer of at most 4300
    digits, and refuses a longer one. *)
Lemma int_str_int (z : Z) :
  int (str_int z)
  = if int_max_str_digits <? digits z then Raise ValueError else Ok z.
Proof.
  unfold int. rewrite (strip_id _ (proj1 (str_int_chars z))).
  rewrite int_literal_str_int, digits_of_str_int. reflexivity.
Qed.

(** X1. A field that holds the decimal text of an integer of at most
    4300 digits, padded with blanks on either side, decodes to that
    integer, except for the two codes -9999 and -8888, which decode to a
    missing value; with more than 4300 digits the field raises
    [ValueError]. *)
Theorem parse_int_str_int (z : Z) (n m : nat) :
  (digits z <= 4300 ->
   _parse_int (blanks n ++ str_int z ++ blanks m)
   = Ok (if (z =? -9999) || (z =? -8888) then None else Some z))
  /\ (4300 < digits z ->
      _parse_int (blanks n ++ str_int z ++ blanks m) = Raise ValueError).
Proof.
  unfold _parse_int.
  rewrite (strip_padded _ n m (proj1 (str_int_chars z))
             (proj2 (str_int_chars z))).
  destruct (String.eqb_spec (str_int z) "") as [E|_].
  { exfalso. exact (proj2 (str_int_chars z) E). }
  split; intros D.
  - destruct (Z.eqb_spec z (-9999)) as [E1|N1]; [subst; reflexivity|].
    destruct (Z.eqb_spec z (-8888)) as [E2|N2]; [subst; reflexivity|].
    destruct (String.eqb_spec (str_int z) "-9999") as [E|_].
    { exfalso. apply N1. apply str_int_inj. exact E. }
    destruct (String.eqb_spec (str_int z) "-8888") as [E|_].
    { exfalso. apply N2. apply str_int_inj. exact E. }
    cbn [orb]. rewrite int_str_int. unfold int_max_str_digits.
    destruct (Z.ltb_spec 4300 (digits z)); [lia|reflexivity].
  - destruct (String.eqb_spec (str_int z) "-9999") as [E|_].
    { apply (str_int_inj z (-9999)) in E. subst z.
      vm_compute in D. discriminate D. }
    destruct (String.eqb_spec (str_int z) "-8888") as [E|_].
    { apply (str_int_inj z (-8888)) in E. subst z.
      vm_compute in D. discriminate D. }
    cbn [orb]. rewrite int_str_int. unfold int_max_str_digits.
    destruct (Z.ltb_spec 4300 (digits z)); [reflexivity|lia].
Qed.

Lemma parse_int_str_int_witness :
  _parse_int ("  " ++ "925" ++ " ") = Ok (Some 925).
Proof.
  apply (proj1 (parse_int_str_int 925 2 1)). vm_compute. discriminate.
Defined.

End TextProps.

(** ** The parser: cursor, records and exceptions *)

Module ParserExtras.

Import NearSpace FloatFacts ParserProps Notions.

Lemma bind_raise {A B : Type} (m : result A) (k : A -> result B) (e : exn) :
  bind m k = Raise e -> m = Raise e \/ exists a, m = Ok a /\ k a = Raise e.
Proof.
  destruct m as [a|e']; simpl; intros H; [right; exists a; tauto|].
  left. congruence.
Qed.

Lemma int_raises (s : string) (e : exn) : int s = Raise e -> e = ValueError.
Proof.
  unfold int.
  destruct (int_literal (list_ascii_of_string (strip s))) as [z|];
    [|congruence].
  destruct (int_max_str_digits <? _); [congruence|discriminate].
Qed.

Lemma float_of_int_raises (z : Z) (e : exn) :
  float_of_int z = Raise e -> e = OverflowError.
Proof.
  unfold float_of_int. destruct (PrimFloat.is_infinity _);
    [congruence|discriminate].
Qed.

Lemma parse_int_raises (s : string) (e : exn) :
  _parse_int s = Raise e -> e = ValueError.
Proof.
  unfold _parse_int.
  destruct ((strip s =? "") || (strip s =? "-9999") || (strip s =? "-8888"))%string;
    [discriminate|].
  intros H. apply bind_raise in H. destruct H as [H|[z [_ H]]];
    [exact (int_raises _ _ H)|discriminate].
Qed.

Lemma parse_float_raises (s : string) (e : exn) :
  _parse_float s 10 = Raise e -> soft e.
Proof.
  unfold _parse_float. intros H. apply bind_raise in H.
  destruct H as [H|[v [_ H]]]; [left; exact (parse_int_raises _ _ H)|].
  destruct v as [v|]; [|discriminate].
  apply bind_raise in H. destruct H as [H|[x [_ H]]];
    [right; exact (float_of_int_raises _ _ H)|].
  simpl in H. discriminate.
Qed.

Lemma round_half_even_nonneg (n d : Z) :
  0 <= n -> 0 < d -> 0 <= round_half_even n d.
Proof.
  intros Hn Hd. unfold round_half_even.
  pose proof (Z.div_pos n d Hn Hd).
  destruct (2 * (n mod d) ?= d); [destruct (Z.even (n / d))|..]; lia.
Qed.

Lemma round_raises (x : float) (e : exn) : Py.round x = Raise e -> soft e.
Proof.
  unfold Py.round, soft. destruct (Prim2SF x); try discriminate;
    intros H; inversion H; tauto.
Qed.

Lemma round_positive (x : float) (k : Z) :
  Py.round x = Ok k -> 0 < k ->
  exists m e, Prim2SF x = S754_finite false m e.
Proof.
  unfold Py.round. destruct (Prim2SF x) as [s|s| |s m e]; try discriminate.
  - intros H. inversion H. lia.
  - intros H Hk. cbv zeta in H.
    set (a := match e with
              | Z.neg k0 => round_half_even (Z.pos m) (2 ^ Z.pos k0)
              | _ => Z.pos m * 2 ^ e
              end) in H.
    assert (A : 0 <= a).
    { unfold a. destruct e as [|p|p].
      - apply Z.mul_nonneg_nonneg; [lia|apply Z.pow_nonneg; lia].
      - apply Z.mul_nonneg_nonneg; [lia|apply Z.pow_nonneg; lia].
      - apply round_half_even_nonneg; [lia|].
        apply Z.pow_pos_nonneg; lia. }
    assert (E : (if s then - a else a) = k) by congruence.
    destruct s; [lia|]. exists m, e. reflexivity.
Qed.

Lemma div_by_positive (a p : float) (ma m : positive) (ea e : Z) :
  Prim2SF a = S754_finite false ma ea ->
  Prim2SF p = S754_finite false m e ->
  PrimFloat.ltb (a / p) 0 = false.
Proof.
  intros Ha Hp. rewrite ltb_spec, div_spec, Ha, Hp.
  change (Prim2SF 0) with (S754_zero false).
  unfold SF64div, SFdiv.
  destruct (SFdiv_core_binary prec emax (Z.pos ma) ea (Z.pos m) e)
    as [[mz ez] lz].
  destruct (SFltb (binary_round_aux prec emax (xorb false false) mz ez lz)
              (S754_zero false)) eqn:E; [|reflexivity].
  apply binary_round_aux_shape in E. discriminate.
Qed.


Lemma SFmul_nan_r (x : spec_float) : SF64mul x S754_nan = S754_nan.
Proof. destruct x; reflexivity. Qed.

Lemma mul_nan_l (w : float) : (nan * w)%float = nan.
Proof. apply Prim2SF_inj. rewrite mul_spec. reflexivity. Qed.

Lemma mul_nan_r (w : float) : (w * nan)%float = nan.
Proof.
  apply Prim2SF_inj. rewrite mul_spec.
  change (Prim2SF nan) with S754_nan. apply SFmul_nan_r.
Qed.


Section WithPow.

Variable libm_pow : float -> float -> float.

Lemma parse_loop_no_header (h : handle) (records : list Sounding) (fuel : nat) :
  Forall (fun l => prefix "#" l = false) h ->
  (List.length h < fuel)%nat ->
  parse_loop libm_pow fuel h records = Some (Ok records).
Proof.
  revert fuel. induction h as [|line rest IH]; intros fuel F L.
  - destruct fuel; [simpl in L; lia|]. reflexivity.
  - destruct fuel as [|fuel]; [simpl in L; lia|].
    inversion F as [|? ? Hl Fr]; subst.
    cbn [parse_loop]. unfold turn. cbn [readline].
    destruct (line =? "")%string; [reflexivity|].
    rewrite Hl. cbn [negb]. apply IH; [exact Fr|simpl in L; lia].
Qed.

(** X2. A file in which no line starts with the header mark, the empty
    file among them, gives no record, and [parse_igra_soundings] raises
    [KeyError] on it: the frame without records has no gradient column
    to drop missing values from. *)
Theorem no_header_no_frame (lines : list string) :
  Forall (fun l => prefix "#" l = false) lines ->
  read_records libm_pow lines = Some (Ok [])
  /\ parse_igra_soundings libm_pow lines = Some (Raise KeyError).
Proof.
  intros F.
  assert (R : read_records libm_pow lines = Some (Ok [])).
  { apply parse_loop_no_header; [exact F|lia]. }
  split; [exact R|]. unfold parse_igra_soundings. rewrite R. reflexivity.
Qed.

Lemma skip_levels_skipn (n : nat) (h : handle) : skip_levels n h = skipn n h.
Proof.
  revert h. induction n as [|n IH]; intros h; [reflexivity|].
  destruct h as [|l h]; simpl.
  - rewrite IH. destruct n; reflexivity.
  - apply IH.
Qed.

Lemma read_levels_cursor (n : nat) (h h' : handle) (s s' : level_store) :
  read_levels n h s = Ok (h', s') ->
  Forall (fun l => l <> "") (firstn n h) ->
  h' = skipn n h.
Proof.
  revert h s. induction n as [|n IH]; intros h s; simpl.
  - intros H _. inversion H. reflexivity.
  - destruct h as [|line rest]; simpl.
    + intros H _. inversion H. reflexivity.
    + intros H F. inversion F as [|? ? Hl Fr]; subst.
      destruct (String.eqb_spec line ""); [congruence|].
      apply bind_ok in H. destruct H as [lvl [_ H]].
      apply bind_ok in H. destruct H as [pressure [_ H]].
      apply bind_ok in H. destruct H as [gph [_ H]].
      apply bind_ok in H. destruct H as [temp [_ H]].
      apply bind_ok in H. destruct H as [rh [_ H]].
      destruct pressure as [p|]; [destruct lvl as [t|]|].
      * repeat (apply bind_ok in H; destruct H as [? [_ H]]).
        exact (IH _ _ H Fr).
      * exact (IH _ _ H Fr).
      * exact (IH _ _ H Fr).
Qed.

(** X3. After the turn of the loop that reads a header, whatever its
    date, the cursor stands exactly [num_levels] lines after the header,
    or at the end of the file when fewer lines are left. *)
Theorem turn_cursor (header : string) (hd : Header) (h h' : handle)
  (records records' : list Sounding) :
  prefix "#" header = true ->
  decode_header header = Ok hd ->
  Forall (fun l => l <> "") (firstn (Z.to_nat (h_num_levels hd)) h) ->
  turn libm_pow (header :: h) records = Ok (Some (h', records')) ->
  h' = skipn (Z.to_nat (h_num_levels hd)) h.
Proof.
  intros Hp Hd F.
  assert (Hne : (header =? "")%string = false).
  { destruct header; [discriminate Hp|reflexivity]. }
  unfold turn. cbn [readline]. rewrite Hne, Hp. cbn [negb].
  rewrite Hd. cbn [bind].
  destruct (negb (truthy (h_year hd) && truthy (h_month hd) && truthy (h_day hd))).
  - intros H. inversion H. apply skip_levels_skipn.
  - intros H.
    apply bind_ok in H. destruct H as [ts [_ H]].
    apply bind_ok in H. destruct H as [[h1 s1] [L H]].
    apply bind_ok in H. destruct H as [rec [_ H]].
    apply read_levels_cursor in L; [|exact F]. simpl in H.
    destruct rec; inversion H; subst; reflexivity.
Qed.

Lemma pd_Timestamp_ok (y m d h : Z) (ts : Timestamp) :
  pd_Timestamp y m d h = Ok ts -> timestamp_ok ts = true.
Proof.
  unfold pd_Timestamp, timestamp_ok.
  destruct ((1 <=? y) && (y <=? 9999) && (1 <=? m) && (m <=? 12)
            && (1 <=? d) && (d <=? days_in_month y m)
            && (0 <=? h) && (h <=? 23)) eqn:E; [|discriminate].
  intros H. inversion H. simpl. exact E.
Qed.

Lemma make_record_datetime (ts : Timestamp) (store : level_store)
  (r : Sounding) :
  make_record libm_pow ts store = Ok (Some r) -> datetime r = ts.
Proof.
  unfold make_record.
  destruct (store_get 925 store) as [l925|]; [|discriminate].
  destruct (store_get 700 store) as [l700|]; [|discriminate].
  destruct (isnan (temp_c l925) || isnan (temp_c l700)); [discriminate|].
  intros H.
  apply bind_ok in H. destruct H as [t925 [_ H]].
  apply bind_ok in H. destruct H as [t700 [_ H]].
  apply bind_ok in H. destruct H as [t850 [_ H]].
  inversion H. reflexivity.
Qed.

Lemma read_levels_suffix (n : nat) (h h' : handle) (s s' : level_store) :
  read_levels n h s = Ok (h', s') -> exists k, h' = skipn k h.
Proof.
  revert h s. induction n as [|n IH]; intros h s; simpl.
  - intros H. inversion H. exists 0%nat. reflexivity.
  - destruct h as [|line rest]; simpl.
    + intros H. inversion H. exists 0%nat. reflexivity.
    + destruct (line =? "")%string.
      * intros H. inversion H. exists 1%nat. reflexivity.
      * intros H.
        apply bind_ok in H. destruct H as [lvl [_ H]].
        apply bind_ok in H. destruct H as [pressure [_ H]].
        apply bind_ok in H. destruct H as [gph [_ H]].
        apply bind_ok in H. destruct H as [temp [_ H]].
        apply bind_ok in H. destruct H as [rh [_ H]].
        assert (G : forall st, read_levels n rest st = Ok (h', s') ->
                    exists k, h' = skipn k (line :: rest)).
        { intros st Hs. destruct (IH _ _ Hs) as [k E].
          exists (S k). exact E. }
        destruct pressure as [p|]; [destruct lvl as [t|]|].
        -- repeat (apply bind_ok in H; destruct H as [? [_ H]]).
           exact (G _ H).
        -- exact (G _ H).
        -- exact (G _ H).
Qed.

Lemma header_count_skipn (k : nat) (h : handle) :
  (header_count (skipn k h) <= header_count h)%nat.
Proof.
  revert h. induction k as [|k IH]; intros h; [simpl; lia|].
  destruct h as [|l h]; [simpl; lia|].
  simpl skipn. specialize (IH h). unfold header_count in *. simpl.
  destruct (prefix "#" l); simpl; lia.
Qed.

Lemma turn_step (h h' : handle) (records records' : list Sounding) :
  turn libm_pow h records = Ok (Some (h', records')) ->
  (records' = records
   \/ exists r, records' = (records ++ [r])%list
                /\ timestamp_ok (datetime r) = true)
  /\ (List.length records' + header_count h'
      <= List.length records + header_count h)%nat.
Proof.
  unfold turn. destruct h as [|header rest]; cbn [readline]; [discriminate|].
  destruct (header =? "")%string; [discriminate|].
  unfold header_count at 2. cbn [filter].
  destruct (prefix "#" header); cbn [negb].
  - intros H. apply bind_ok in H. destruct H as [hd [_ H]].
    destruct (negb (truthy (h_year hd) && truthy (h_month hd)
                    && truthy (h_day hd))).
    + inversion H. subst. split; [left; reflexivity|].
      rewrite skip_levels_skipn.
      pose proof (header_count_skipn (Z.to_nat (h_num_levels hd)) rest).
      unfold header_count in *. simpl. lia.
    + apply bind_ok in H. destruct H as [ts [Hts H]].
      apply bind_ok in H. destruct H as [[h1 s1] [L H]].
      apply bind_ok in H. destruct H as [rec [Hrec H]].
      apply read_levels_suffix in L. destruct L as [k L]. simpl in L.
      pose proof (header_count_skipn k rest) as C.
      simpl in H. destruct rec as [r|]; inversion H; subst.
      * split.
        -- right. exists r. split; [reflexivity|].
           rewrite (make_record_datetime _ _ _ Hrec).
           exact (pd_Timestamp_ok _ _ _ _ _ Hts).
        -- rewrite length_app. unfold header_count in *. simpl. lia.
      * split; [left; reflexivity|].
        unfold header_count in *. simpl. lia.
  - intros H. inversion H. subst. split; [left; reflexivity|].
    unfold header_count. lia.
Qed.

Lemma parse_loop_invariant (fuel : nat) (h : handle)
  (records out : list Sounding) :
  parse_loop libm_pow fuel h records = Some (Ok out) ->
  (exists tail, out = (records ++ tail)%list
                /\ Forall (fun r => timestamp_ok (datetime r) = true) tail)
  /\ (List.length out <= List.length records + header_count h)%nat.
Proof.
  revert h records. induction fuel as [|fuel IH]; intros h records;
    [discriminate|].
  cbn [parse_loop].
  destruct (turn libm_pow h records) as [[[h' records']|]|e] eqn:T.
  - intros H. destruct (IH _ _ H) as [[tail [E F]] C].
    destruct (turn_step _ _ _ _ T) as [[R|[r [R V]]] C'].
    + subst records'. split; [exists tail; tauto|lia].
    + subst records'. split; [|lia].
      exists (r :: tail). split.
      * rewrite E, <- app_assoc. reflexivity.
      * constructor; assumption.
  - intros H. inversion H. subst. split; [|lia].
    exists []. split; [rewrite app_nil_r; reflexivity|constructor].
  - discriminate.
Qed.

(** The records of a file carry timestamps of the calendar, and there
    is at most one record for every header line. *)
Lemma records_valid_and_bounded (lines : list string)
  (out : list Sounding) :
  read_records libm_pow lines = Some (Ok out) ->
  Forall (fun r => timestamp_ok (datetime r) = true) out
  /\ (List.length out <= header_count lines)%nat.
Proof.
  intros H. destruct (parse_loop_invariant _ _ _ _ H) as [[tail [E F]] C].
  simpl in E, C. subst out. tauto.
Qed.

Lemma dropna_gradient_ok (records df : list Sounding) :
  dropna_gradient records = Ok df ->
  records <> []
  /\ df = filter (fun r => negb (isnan (theta_gradient_700_925_K r)))
            records.
Proof.
  unfold dropna_gradient. destruct records as [|r0 rs]; [discriminate|].
  intros H. injection H as E. split; [discriminate|].
  symmetry. exact E.
Qed.

(** X4. Every row of the frame that [parse_igra_soundings] returns has
    a timestamp of the calendar (month 1 to 12, a day of that month, hour
    0 to 23) and a gradient that is not missing; the frame has at most
    one row for every header line of the file, and the file has a header
    line. *)
Theorem frame_rows_valid (lines : list string) (df : list Sounding) :
  parse_igra_soundings libm_pow lines = Some (Ok df) ->
  Forall (fun r => timestamp_ok (datetime r) = true
                   /\ isnan (theta_gradient_700_925_K r) = false) df
  /\ (List.length df <= header_count lines)%nat
  /\ (0 < header_count lines)%nat.
Proof.
  unfold parse_igra_soundings.
  destruct (read_records libm_pow lines) as [[out|e]|] eqn:R;
    try discriminate.
  simpl. intros H. destruct (records_valid_and_bounded _ _ R) as [V C].
  injection H as H.
  destruct (dropna_gradient_ok _ _ H) as [N E]. subst df.
  split; [|split].
  - apply Forall_forall. intros r I. apply filter_In in I.
    destruct I as [I K]. split.
    + exact (proj1 (Forall_forall _ _) V r I).
    + apply negb_true_iff in K. exact K.
  - pose proof (filter_length_le
                  (fun r => negb (isnan (theta_gradient_700_925_K r))) out).
    lia.
  - destruct out; [congruence|]. simpl in C. lia.
Qed.

Lemma potential_temperature_raises (t p : float) (m : positive) (e : Z)
  (err : exn) :
  Prim2SF p = S754_finite false m e ->
  _potential_temperature libm_pow t p = Raise err -> err = OverflowError.
Proof.
  intros Hp. unfold _potential_temperature, truediv.
  assert (Z0 : PrimFloat.eqb p 0 = false).
  { rewrite eqb_spec, Hp. reflexivity. }
  rewrite Z0. cbn [bind]. unfold pow_fractional.
  rewrite (div_by_positive 1000 p _ _ _ _ eq_refl Hp).
  destruct (PrimFloat.is_nan (1000 / p)); [discriminate|].
  destruct (PrimFloat.is_infinity (1000 / p)); [discriminate|].
  destruct (PrimFloat.eqb (1000 / p) 0); [discriminate|].
  destruct (PrimFloat.eqb (1000 / p) 1); [discriminate|].
  destruct (PrimFloat.is_infinity (libm_pow (1000 / p) 0.2854));
    [|discriminate].
  simpl. congruence.
Qed.

Lemma store_get_keyed (k : Z) (s : level_store) (l : Level) :
  store_keyed s -> store_get k s = Some l ->
  Py.round (pressure_hpa l) = Ok k.
Proof.
  unfold store_keyed. induction s as [|[k' v] s IH]; simpl; [discriminate|].
  intros F H. inversion F as [|? ? Hv Fs]; subst. simpl in Hv.
  destruct (Z.eqb_spec k k').
  - inversion H. subst. exact Hv.
  - exact (IH Fs H).
Qed.

Lemma store_set_keyed (k : Z) (v : Level) (s : level_store) :
  Py.round (pressure_hpa v) = Ok k -> store_keyed s ->
  store_keyed (store_set k v s).
Proof.
  unfold store_keyed, store_set. intros Hv F. constructor; [exact Hv|].
  apply Forall_forall. intros kv I. apply filter_In in I.
  exact (proj1 (Forall_forall _ _) F kv (proj1 I)).
Qed.

(** One turn of the level loop is the body, then the rest of the loop. *)
Lemma read_levels_step (n : nat) (line : string) (rest : handle)
  (s : level_store) :
  line <> "" ->
  read_levels (S n) (line :: rest) s
  = (lvl <- level_of_line line ;; read_levels n rest (file_level lvl s)).
Proof.
  intros Hne. cbn [read_levels readline].
  destruct (String.eqb_spec line ""); [contradiction|].
  unfold level_of_line.
  destruct (_parse_int (slice line 0 1)) as [lvl|e]; cbn [bind];
    [|reflexivity].
  destruct (_parse_int (slice line 9 15)) as [pressure|e]; cbn [bind];
    [|reflexivity].
  destruct (_parse_int (slice line 16 21)) as [gph|e]; cbn [bind];
    [|reflexivity].
  destruct (_parse_float (slice line 22 27) 10) as [temp|e]; cbn [bind];
    [|reflexivity].
  destruct (_parse_float (slice line 28 33) 10) as [rh|e]; cbn [bind];
    [|reflexivity].
  destruct pressure as [p|]; [destruct lvl as [t|]|];
    cbn [bind file_level]; try reflexivity.
  destruct (float_of_int p) as [pf|e]; cbn [bind]; [|reflexivity].
  destruct (truediv pf 100) as [q|e]; cbn [bind]; [|reflexivity].
  destruct (Py.round q) as [key|e]; cbn [bind]; [|reflexivity].
  destruct gph as [g|]; [destruct (float_of_int g) as [gf|e]|];
    cbn [bind file_level]; reflexivity.
Qed.

Lemma level_of_line_raises (line : string) (e : exn) :
  level_of_line line = Raise e -> soft e.
Proof.
  unfold level_of_line. intros H.
  apply bind_raise in H. destruct H as [H|[lvl [_ H]]];
    [left; exact (parse_int_raises _ _ H)|].
  apply bind_raise in H. destruct H as [H|[pressure [_ H]]];
    [left; exact (parse_int_raises _ _ H)|].
  apply bind_raise in H. destruct H as [H|[gph [_ H]]];
    [left; exact (parse_int_raises _ _ H)|].
  apply bind_raise in H. destruct H as [H|[temp [_ H]]];
    [exact (parse_float_raises _ _ H)|].
  apply bind_raise in H. destruct H as [H|[rh [_ H]]];
    [exact (parse_float_raises _ _ H)|].
  destruct pressure as [p|]; [destruct lvl as [t|]|]; try discriminate.
  apply bind_raise in H. destruct H as [H|[pf [_ H]]];
    [right; exact (float_of_int_raises _ _ H)|].
  apply bind_raise in H. destruct H as [H|[q [_ H]]].
  { unfold truediv in H. change (PrimFloat.eqb 100 0) with false in H.
    discriminate. }
  apply bind_raise in H. destruct H as [H|[key [_ H]]];
    [exact (round_raises _ _ H)|].
  apply bind_raise in H. destruct H as [H|[gf [_ H]]]; [|discriminate].
  destruct gph as [g|]; [|discriminate].
  right. exact (float_of_int_raises _ _ H).
Qed.

Lemma level_of_line_keyed (line : string) (k : Z) (l : Level) :
  level_of_line line = Ok (Some (k, l)) ->
  Py.round (pressure_hpa l) = Ok k.
Proof.
  unfold level_of_line. intros H.
  apply bind_ok in H. destruct H as [lvl [_ H]].
  apply bind_ok in H. destruct H as [pressure [_ H]].
  apply bind_ok in H. destruct H as [gph [_ H]].
  apply bind_ok in H. destruct H as [temp [_ H]].
  apply bind_ok in H. destruct H as [rh [_ H]].
  destruct pressure as [p|]; [destruct lvl as [t|]|]; try discriminate.
  apply bind_ok in H. destruct H as [pf [_ H]].
  apply bind_ok in H. destruct H as [q [_ H]].
  apply bind_ok in H. destruct H as [key [Ek H]].
  apply bind_ok in H. destruct H as [gf [_ H]].
  injection H as E1 E2. subst k l. exact Ek.
Qed.

Lemma read_levels_soft (n : nat) (h : handle) (s : level_store) :
  store_keyed s ->
  match read_levels n h s with
  | Ok (_, s') => store_keyed s'
  | Raise e => soft e
  end.
Proof.
  revert h s. induction n as [|n IH]; intros h s K; [exact K|].
  destruct h as [|line rest]; [exact K|].
  destruct (String.eqb_spec line "") as [E|Hne].
  { subst line. exact K. }
  rewrite (read_levels_step _ _ _ _ Hne).
  destruct (level_of_line line) as [lvl|e] eqn:L; cbn [bind];
    [|exact (level_of_line_raises _ _ L)].
  apply IH. destruct lvl as [[k l]|]; [|exact K].
  apply store_set_keyed; [exact (level_of_line_keyed _ _ _ L)|exact K].
Qed.

Lemma make_record_raises (ts : Timestamp) (store : level_store) (e : exn) :
  store_keyed store ->
  make_record libm_pow ts store = Raise e -> e = OverflowError.
Proof.
  intros K. unfold make_record.
  destruct (store_get 925 store) as [l925|] eqn:G925; [|discriminate].
  destruct (store_get 700 store) as [l700|] eqn:G700; [|discriminate].
  destruct (isnan (temp_c l925) || isnan (temp_c l700)); [discriminate|].
  destruct (round_positive _ _ (store_get_keyed _ _ _ K G925) eq_refl)
    as [m9 [e9 P9]].
  destruct (round_positive _ _ (store_get_keyed _ _ _ K G700) eq_refl)
    as [m7 [e7 P7]].
  intros H.
  apply bind_raise in H.
  destruct H as [H|[t925 [_ H]]];
    [exact (potential_temperature_raises _ _ _ _ _ P9 H)|].
  apply bind_raise in H.
  destruct H as [H|[t700 [_ H]]];
    [exact (potential_temperature_raises _ _ _ _ _ P7 H)|].
  apply bind_raise in H.
  destruct H as [H|[t850 [_ H]]]; [|discriminate].
  destruct (store_get 850 store) as [l850|] eqn:G850; [|discriminate].
  destruct (negb (isnan (temp_c l850))); [|discriminate].
  destruct (round_positive _ _ (store_get_keyed _ _ _ K G850) eq_refl)
    as [m8 [e8 P8]].
  exact (potential_temperature_raises _ _ _ _ _ P8 H).
Qed.

Lemma pd_Timestamp_raises (y m d h : Z) (e : exn) :
  pd_Timestamp y m d h = Raise e -> e = ValueError.
Proof.
  unfold pd_Timestamp.
  match goal with |- context [if ?c then _ else _] => destruct c end;
    [discriminate|congruence].
Qed.

Lemma decode_header_raises (header : string) (e : exn) :
  decode_header header = Raise e -> e = ValueError.
Proof.
  unfold decode_header. intros H.
  repeat (apply bind_raise in H;
          destruct H as [H|[? [_ H]]];
          [exact (parse_int_raises _ _ H)|]).
  discriminate.
Qed.

Lemma turn_raises (h : handle) (records : list Sounding) (e : exn) :
  turn libm_pow h records = Raise e -> soft e.
Proof.
  unfold turn. destruct h as [|header rest]; cbn [readline]; [discriminate|].
  destruct (header =? "")%string; [discriminate|].
  destruct (negb (prefix "#" header)); [discriminate|].
  intros H. apply bind_raise in H.
  destruct H as [H|[hd [_ H]]]; [left; exact (decode_header_raises _ _ H)|].
  destruct (negb (truthy (h_year hd) && truthy (h_month hd)
                  && truthy (h_day hd))); [discriminate|].
  apply bind_raise in H.
  destruct H as [H|[ts [_ H]]]; [left; exact (pd_Timestamp_raises _ _ _ _ _ H)|].
  pose proof (read_levels_soft (Z.to_nat (h_num_levels hd)) rest []
                (Forall_nil _)) as L.
  apply bind_raise in H. destruct H as [H|[[h1 s1] [E H]]].
  - rewrite H in L. exact L.
  - rewrite E in L. apply bind_raise in H.
    destruct H as [H|[rec [_ H]]].
    + right. exact (make_record_raises _ _ _ L H).
    + destruct rec; discriminate.
Qed.

(** X5. Reading the records raises nothing but [ValueError] (text that
    is no integer, a date outside the calendar) and [OverflowError];
    [parse_igra_soundings] adds [KeyError].  In particular the potential
    temperature never divides by zero and never leaves the real numbers:
    the levels looked up under 925, 850 and 700 have a positive
    pressure. *)
Theorem parse_raises_only (lines : list string) (e : exn) :
  (read_records libm_pow lines = Some (Raise e) ->
   e = ValueError \/ e = OverflowError)
  /\ (parse_igra_soundings libm_pow lines = Some (Raise e) ->
      e = ValueError \/ e = OverflowError \/ e = KeyError).
Proof.
  assert (L : forall fuel h rs,
            parse_loop libm_pow fuel h rs = Some (Raise e) -> soft e).
  { induction fuel as [|fuel IH]; intros h rs; [discriminate|].
    cbn [parse_loop].
    destruct (turn libm_pow h rs) as [[[h' rs']|]|e'] eqn:T.
    - apply IH.
    - discriminate.
    - intros H. inversion H. subst. exact (turn_raises _ _ _ T). }
  split; [apply L|].
  unfold parse_igra_soundings.
  destruct (read_records libm_pow lines) as [[out|e']|] eqn:R;
    [| |discriminate].
  - simpl. unfold dropna_gradient. destruct out; [|discriminate].
    intros H. inversion H. tauto.
  - simpl. intros H. inversion H. subst.
    destruct (L _ _ _ R); tauto.
Qed.

(** X6. The potential temperature at a pressure of zero, of either sign,
    raises [ZeroDivisionError]; a missing temperature gives a missing
    result whenever there is a result, and a missing pressure gives a
    missing result without an exception. *)
Theorem potential_temperature_edges (temp_c pressure_hpa : float) :
  (PrimFloat.eqb pressure_hpa 0 = true ->
   _potential_temperature libm_pow temp_c pressure_hpa
   = Raise ZeroDivisionError)
  /\ (forall v, _potential_temperature libm_pow nan pressure_hpa = Ok v ->
                v = nan)
  /\ _potential_temperature libm_pow temp_c nan = Ok nan.
Proof.
  unfold _potential_temperature, truediv. split; [|split].
  - intros H. rewrite H. reflexivity.
  - intros v H. destruct (PrimFloat.eqb pressure_hpa 0); [discriminate|].
    cbn [bind] in H.
    destruct (pow_fractional libm_pow (1000 / pressure_hpa) 0.2854)
      as [w|e]; [|discriminate].
    cbn [bind] in H. injection H as H. subst v.
    change (nan + 273.15)%float with nan. apply mul_nan_l.
  - change (PrimFloat.eqb nan 0) with false. cbn [bind].
    change (1000 / nan)%float with nan.
    change (pow_fractional libm_pow nan 0.2854) with (@Ok float nan).
    cbn [bind]. rewrite mul_nan_r. reflexivity.
Qed.

Lemma store_get_filter (k k' : Z) (s : level_store) :
  k' <> k ->
  store_get k' (filter (fun kv => negb (fst kv =? k)) s) = store_get k' s.
Proof.
  intros N. induction s as [|[k0 v0] s IH]; [reflexivity|].
  cbn [filter fst]. destruct (Z.eqb_spec k0 k) as [E|E]; cbn [negb].
  - subst k0. cbn [store_get]. destruct (Z.eqb_spec k' k); [contradiction|].
    exact IH.
  - cbn [store_get]. rewrite IH. reflexivity.
Qed.

Lemma store_set_NoDup (k : Z) (v : Level) (s : level_store) :
  NoDup (map fst s) -> NoDup (map fst (store_set k v s)).
Proof.
  intros N. unfold store_set. cbn [map fst]. constructor.
  - intros I. apply in_map_iff in I. destruct I as [[k0 v0] [E I]].
    apply filter_In in I. destruct I as [_ I]. simpl in E, I. subst k0.
    rewrite Z.eqb_refl in I. discriminate.
  - induction s as [|[k0 v0] s IH]; [constructor|].
    inversion N as [|? ? Nk N']; subst. cbn [filter fst].
    destruct (negb (k0 =? k)); [|exact (IH N')].
    cbn [map fst]. constructor; [|exact (IH N')].
    intros I. apply Nk. apply in_map_iff in I.
    destruct I as [kv [E I]]. apply filter_In in I.
    apply in_map_iff. exists kv. tauto.
Qed.

Lemma read_levels_invariant (Inv : level_store -> Prop) :
  (forall k v s, Py.round (pressure_hpa v) = Ok k -> Inv s ->
                 Inv (store_set k v s)) ->
  forall n h s h' s',
    Inv s -> read_levels n h s = Ok (h', s') -> Inv s'.
Proof.
  intros Hset. induction n as [|n IH]; intros h s h' s' I.
  - intros H. injection H as _ E. subst. exact I.
  - destruct h as [|line rest].
    + intros H. injection H as _ E. subst. exact I.
    + destruct (String.eqb_spec line "") as [E|Hne].
      * subst line. intros H. injection H as _ E. subst. exact I.
      * rewrite (read_levels_step _ _ _ _ Hne). intros H.
        apply bind_ok in H. destruct H as [lvl [L H]].
        refine (IH _ _ _ _ _ H). destruct lvl as [[k l]|]; [|exact I].
        apply Hset; [exact (level_of_line_keyed _ _ _ L)|exact I].
Qed.

Lemma store_get_set (k k' : Z) (v : Level) (s : level_store) :
  store_get k (store_set k' v s)
  = if k =? k' then Some v else store_get k s.
Proof.
  unfold store_set. cbn [store_get].
  destruct (Z.eqb_spec k k') as [E|N]; [reflexivity|].
  apply store_get_filter. exact N.
Qed.

(** The store after the loop: for every key the last line of the block
    that is filed under it, and what was there before the block for a key
    without line. *)
Lemma read_levels_last (n : nat) (h h' : handle) (s0 s : level_store)
  (k : Z) :
  read_levels n h s0 = Ok (h', s) ->
  store_get k s
  = match last_level k (block_lines n h) with
    | Some l => Some l
    | None => store_get k s0
    end.
Proof.
  revert h s0. induction n as [|n IH]; intros h s0.
  - intros H. injection H as _ E. subst. reflexivity.
  - destruct h as [|line rest].
    + intros H. injection H as _ E. subst. reflexivity.
    + cbn [block_lines].
      destruct (String.eqb_spec line "") as [E|Hne].
      * subst line. intros H. injection H as _ E. subst. reflexivity.
      * rewrite (read_levels_step _ _ _ _ Hne). intros H.
        apply bind_ok in H. destruct H as [lvl [L H]].
        rewrite (IH _ _ H). cbn [last_level].
        destruct (last_level k (block_lines n rest)); [reflexivity|].
        rewrite L. destruct lvl as [[k' l]|]; cbn [file_level];
          [|reflexivity].
        rewrite store_get_set. destruct (k =? k'); reflexivity.
Qed.

(** X7. In the level store of a block no key occurs twice, every level
    is found under the rounding of its own pressure, and a key holds the
    level of the last line of the block that is filed under it: a later
    line of the same rounded pressure replaces the earlier one. *)
Theorem levels_filed_by_rounded_pressure (n : nat) (h h' : handle)
  (s : level_store) :
  read_levels n h [] = Ok (h', s) ->
  NoDup (map fst s)
  /\ (forall k l, store_get k s = Some l ->
                  Py.round (pressure_hpa l) = Ok k)
  /\ (forall k, store_get k s = last_level k (block_lines n h)).
Proof.
  intros H. split; [|split].
  - apply (read_levels_invariant (fun s => NoDup (map fst s))
             (fun k v s _ => store_set_NoDup k v s) n h [] h' s);
      [constructor|exact H].
  - intros k l G.
    apply (store_get_keyed k s l); [|exact G].
    apply (read_levels_invariant store_keyed store_set_keyed n h [] h' s);
      [constructor|exact H].
  - intros k. rewrite (read_levels_last _ _ _ _ _ k H).
    destruct (last_level k (block_lines n h)); reflexivity.
Qed.

Lemma parse_loop_step (fuel : nat) (h h' : handle)
  (records records' : list Sounding) :
  turn libm_pow h records = Ok (Some (h', records')) ->
  parse_loop libm_pow (S fuel) h records
  = parse_loop libm_pow fuel h' records'.
Proof. intros T. cbn [parse_loop]. rewrite T. reflexivity. Qed.

(** X8. A line that does not start with the header mark, read where a
    header is expected, is passed over: the file gives the records it
    gives without that line. *)
Theorem orphan_line_skipped (line : string) (rest : list string) :
  line <> "" -> prefix "#" line = false ->
  read_records libm_pow (line :: rest) = read_records libm_pow rest.
Proof.
  intros Hne Hp. destruct (read_records_total libm_pow rest) as [out Hout].
  rewrite Hout. unfold read_records in *.
  assert (T : turn libm_pow (line :: rest) [] = Ok (Some (rest, []))).
  { unfold turn. cbn [readline].
    destruct (String.eqb_spec line ""); [contradiction|].
    rewrite Hp. reflexivity. }
  rewrite (parse_loop_step _ _ _ _ _ T).
  apply (parse_loop_more libm_pow (S (List.length rest))); [exact Hout|].
  simpl. lia.
Qed.

End WithPow.

(** *** Instances *)

Lemma no_header_no_frame_witness :
  parse_igra_soundings (fun x _ => x) lines_without_header
  = Some (Raise KeyError).
Proof.
  assert (V : Forall (fun l => prefix "#" l = false) lines_without_header)
    by (repeat constructor).
  exact (proj2 (no_header_no_frame (fun x _ => x) lines_without_header V)).
Defined.

Lemma turn_cursor_witness :
  block_valid = skipn 3 (tl block_valid ++ block_valid)%list.
Proof.
  eapply (turn_cursor (fun x _ => x) header_valid
            (mkHeader (Some 2020) (Some 1) (Some 15) (Some 12) 3)
            (tl block_valid ++ block_valid)%list block_valid []).
  - reflexivity.
  - reflexivity.
  - repeat (constructor; [discriminate|]). constructor.
  - vm_compute. reflexivity.
Defined.

Lemma frame_rows_valid_witness :
  Forall (fun r => timestamp_ok (datetime r) = true
                   /\ isnan (theta_gradient_700_925_K r) = false)
    frame_of_block_valid
  /\ (List.length frame_of_block_valid <= header_count block_valid)%nat
  /\ (0 < header_count block_valid)%nat.
Proof.
  apply (frame_rows_valid (fun x _ => x) block_valid frame_of_block_valid).
  vm_compute. reflexivity.
Defined.

Lemma parse_raises_only_witness :
  ValueError = ValueError \/ ValueError = OverflowError.
Proof.
  apply (proj1 (parse_raises_only (fun x _ => x) [header_hour_minus_one]
                  ValueError)).
  vm_compute. reflexivity.
Defined.

Lemma potential_temperature_edges_witness :
  _potential_temperature (fun x _ => x) 10 neg_zero
  = Raise ZeroDivisionError.
Proof.
  apply (proj1 (potential_temperature_edges (fun x _ => x) 10 neg_zero)).
  reflexivity.
Defined.

Lemma levels_filed_by_rounded_pressure_witness :
  option_map temp_c (store_get 925 store_of_block_repeated)
  = Some 12%float.
Proof.
  rewrite (proj2 (proj2 (levels_filed_by_rounded_pressure 3
                           block_repeated_level [] store_of_block_repeated
                           eq_refl)) 925).
  vm_compute. reflexivity.
Defined.

Lemma orphan_line_skipped_witness :
  read_records (fun x _ => x) (("end of list" ++ newline) :: block_valid)
  = read_records (fun x _ => x) block_valid.
Proof.
  apply (orphan_line_skipped (fun x _ => x) ("end of list" ++ newline)
           block_valid); [discriminate | reflexivity].
Defined.

End ParserExtras.

(** ** The merged table of a parsed file *)

Module MergeProps.

Import NearSpace PandasProps ParserProps AggregationProps ParserExtras.
Import Notions.

Lemma timestamp_calendar (ts : Timestamp) :
  timestamp_ok ts = true -> calendar_month (to_period ts) = true.
Proof.
  unfold timestamp_ok, calendar_month, to_period. cbn [p_year p_month].
  rewrite !andb_true_iff. tauto.
Qed.

Section WithLibraries.

Variable libm_pow : float -> float -> float.
Variable median : list float -> float.
Variable quantile : list float -> float -> float.

(** The months of a parsed frame are months of the calendar. *)
Lemma parsed_months_calendar (lines : list string) (df : list Sounding) :
  parse_igra_soundings libm_pow lines = Some (Ok df) ->
  Forall (fun r => calendar_month (to_period (datetime r)) = true) df.
Proof.
  unfold parse_igra_soundings.
  destruct (read_records libm_pow lines) as [[out|e]|] eqn:R;
    try discriminate.
  simpl. intros H. injection H as H.
  destruct (records_valid_and_bounded libm_pow _ _ R) as [V _].
  destruct (dropna_gradient_ok _ _ H) as [_ E]. subst df.
  apply Forall_forall. intros r I. apply filter_In in I.
  apply timestamp_calendar.
  exact (proj1 (Forall_forall _ _) V r (proj1 I)).
Qed.

(** C2. For every sounding file that parses to a frame and every pair of
    aerosol tables: every row of the merged table has a month that is a
    month of the soundings, of the optical-depth table and of the
    deconvolution table, and that is 2010-01 or later, as text and in
    the calendar; its aerosol values are rows of the two aerosol tables
    for that very month (no row is filled in for a month that a source
    lacks); and the months of the table are ascending. *)
Theorem merged_months (lines : list string) (igra_df : list Sounding)
  (aod_monthly : list AodRow) (sda_monthly : list SdaRow) :
  parse_igra_soundings libm_pow lines = Some (Ok igra_df) ->
  let tables := main median quantile igra_df aod_monthly sda_monthly in
  let merged := near_space_monthly_combo tables in
  (forall row, In row merged ->
     In (month row)
       (map (fun r => period_str (to_period (datetime r))) igra_df)
     /\ In (month row) (map (fun a => period_str (aod_month a)) aod_monthly)
     /\ In (month row) (map (fun s => period_str (sda_month s)) sda_monthly)
     /\ String.leb "2010-01" (month row) = true
     /\ (exists r, In r igra_df
                   /\ month row = period_str (to_period (datetime r))
                   /\ period_leb floor_month (to_period (datetime r)) = true)
     /\ In (month row, sounding_metrics row) (igra_monthly_metrics tables)
     /\ In (optical_depth row) aod_monthly
     /\ In (deconvolution row) sda_monthly
     /\ month row = period_str (aod_month (optical_depth row))
     /\ month row = period_str (sda_month (deconvolution row)))
  /\ StronglySorted (fun a b => String.leb a b = true) (map month merged).
Proof.
  intros P. apply merged_months_calendar.
  exact (parsed_months_calendar _ _ P).
Qed.

End WithLibraries.

(** *** Instances *)

Lemma merged_months_witness :
  StronglySorted (fun a b => String.leb a b = true)
    (map month
       (near_space_monthly_combo
          (main (fun _ => 0%float) (fun _ _ => 0%float)
             frame_of_block_valid aod_with_2020 sda_with_2020))).
Proof.
  assert (P : parse_igra_soundings (fun x _ => x) block_valid
              = Some (Ok frame_of_block_valid))
    by (vm_compute; reflexivity).
  exact (proj2 (merged_months (fun x _ => x) (fun _ => 0%float)
                  (fun _ _ => 0%float) block_valid frame_of_block_valid
                  aod_with_2020 sda_with_2020 P)).
Defined.

(** The months of that merged table. *)
Lemma merged_months_of_block_valid :
  map month
    (near_space_monthly_combo
       (main (fun _ => 0%float) (fun _ _ => 0%float)
          frame_of_block_valid aod_with_2020 sda_with_2020))
  = ["2020-01"].
Proof. vm_compute. reflexivity. Qed.

End MergeProps.

(** ** Groups, the aerosol table and the merged table *)

Module TableProps.

Import NearSpace PandasProps AggregationProps Notions.

Section Partition.
Context {A K : Type}.
Variable key : A -> K.
Variables eqb leb : K -> K -> bool.
Variable P : K -> Prop.

Hypothesis eqb_eq : forall a b, eqb a b = true <-> a = b.
Hypothesis leb_total : forall a b, leb a b = false -> leb b a = true.
Hypothesis leb_trans :
  forall a b c, leb a b = true -> leb b c = true -> leb a c = true.
Hypothesis leb_antisym :
  forall a b, P a -> P b -> leb a b = true -> leb b a = true -> a = b.

Lemma insert_key_NoDup (k : K) (ks : list K) :
  P k -> Forall P ks ->
  StronglySorted (fun a b => leb a b = true) ks -> NoDup ks ->
  NoDup (insert_key eqb leb k ks).
Proof.
  assert (R : forall a, eqb a a = true) by (intros a; apply eqb_eq; reflexivity).
  intros Pk. induction ks as [|k' rest IH]; simpl; intros F S N.
  - constructor; [intros []|constructor].
  - destruct (eqb k k') eqn:E; [exact N|].
    inversion F as [|? ? Pk' Fr]; subst.
    inversion S as [|? ? S' Fs]; subst.
    inversion N as [|? ? Nk' N']; subst.
    destruct (leb k k') eqn:L.
    + constructor; [|exact N]. intros [I|I].
      * subst. rewrite R in E. discriminate.
      * assert (L' : leb k' k = true)
          by exact (proj1 (Forall_forall _ _) Fs k I).
        pose proof (leb_antisym k k' Pk Pk' L L') as Ek.
        subst. rewrite R in E. discriminate.
    + constructor; [|apply IH; assumption].
      intros I. apply insert_key_In in I. destruct I as [I|I].
      * subst. rewrite R in E. discriminate.
      * exact (Nk' I).
Qed.

Lemma group_keys_NoDup (rows : list A) :
  Forall (fun r => P (key r)) rows ->
  NoDup (group_keys key eqb leb rows).
Proof.
  induction rows as [|r rows IH]; simpl; intros F; [constructor|].
  inversion F as [|? ? Pr Fr]; subst.
  apply insert_key_NoDup.
  - exact Pr.
  - apply Forall_forall. intros k I. apply group_keys_In in I.
    destruct I as [r' [I E]]. subst k.
    exact (proj1 (Forall_forall _ _) Fr r' I).
  - apply group_keys_sorted; assumption.
  - apply IH. exact Fr.
Qed.

Lemma list_sum_map_add {B : Type} (f g : B -> nat) (l : list B) :
  list_sum (map (fun x => (f x + g x)%nat) l)
  = (list_sum (map f l) + list_sum (map g l))%nat.
Proof. induction l as [|x l IH]; simpl; [reflexivity|]. rewrite IH. lia. Qed.

Lemma indicator_absent (k0 : K) (ks : list K) :
  ~ In k0 ks ->
  list_sum (map (fun k => if eqb k0 k then 1%nat else 0%nat) ks) = 0%nat.
Proof.
  induction ks as [|k ks IH]; simpl; intros N; [reflexivity|].
  destruct (eqb k0 k) eqn:E.
  - apply eqb_eq in E. subst. tauto.
  - apply IH. tauto.
Qed.

Lemma indicator_present (k0 : K) (ks : list K) :
  NoDup ks -> In k0 ks ->
  list_sum (map (fun k => if eqb k0 k then 1%nat else 0%nat) ks) = 1%nat.
Proof.
  induction ks as [|k ks IH]; simpl; intros N I; [destruct I|].
  inversion N as [|? ? Nk N']; subst.
  destruct (eqb k0 k) eqn:E.
  - apply eqb_eq in E. subst. rewrite (indicator_absent _ _ Nk). reflexivity.
  - destruct I as [I|I].
    + subst. rewrite (proj2 (eqb_eq k0 k0) eq_refl) in E. discriminate.
    + rewrite (IH N' I). reflexivity.
Qed.

(** The groups of distinct keys that cover the rows hold every row once. *)
Lemma groups_partition (ks : list K) (rows : list A) :
  NoDup ks -> (forall r, In r rows -> In (key r) ks) ->
  list_sum
    (map (fun k => List.length (filter (fun r => eqb (key r) k) rows)) ks)
  = List.length rows.
Proof.
  intros N. induction rows as [|r rows IH]; intros C.
  - clear N C. induction ks as [|k ks IHk]; simpl; [reflexivity|exact IHk].
  - rewrite (map_ext
               (fun k => List.length
                           (filter (fun r0 => eqb (key r0) k) (r :: rows)))
               (fun k => ((if eqb (key r) k then 1 else 0)
                          + List.length
                              (filter (fun r0 => eqb (key r0) k) rows))%nat)).
    + rewrite list_sum_map_add, (indicator_present _ _ N).
      * rewrite IH; [reflexivity|]. intros r' I. apply C. right. exact I.
      * apply C. left. reflexivity.
    + intros k. cbn [filter]. destruct (eqb (key r) k); reflexivity.
Qed.

End Partition.

Lemma Zsum_of_nat {B : Type} (f : B -> nat) (l : list B) :
  fold_right Z.add 0 (map (fun x => Z.of_nat (f x)) l)
  = Z.of_nat (list_sum (map f l)).
Proof. induction l as [|x l IH]; simpl; [reflexivity|]. rewrite IH. lia. Qed.

Lemma group_count (p : Sounding -> bool) (df : list Sounding) :
  List.length
    (filter (fun x => negb (isnan x))
       (map theta_gradient_700_925_K (filter p df)))
  = List.length (filter p (filter has_gradient df)).
Proof.
  induction df as [|r df IH]; simpl; [reflexivity|].
  unfold has_gradient at 1.
  destruct (p r) eqn:Ep; simpl;
    destruct (negb (isnan (theta_gradient_700_925_K r))); simpl;
    rewrite ?Ep; simpl; rewrite IH; reflexivity.
Qed.

Lemma period_eqb_iff (p q : Period) : period_eqb p q = true <-> p = q.
Proof.
  split; [apply period_eqb_eq|]. intros E. subst. unfold period_eqb.
  rewrite !Z.eqb_refl. reflexivity.
Qed.

Lemma period_leb_antisym (p q : Period) :
  1 <= p_month p <= 12 -> 1 <= p_month q <= 12 ->
  period_leb p q = true -> period_leb q p = true -> p = q.
Proof.
  destruct p as [y m], q as [y' m']. unfold period_leb, ordinal. simpl.
  rewrite !Z.leb_le. intros Hm Hm' L L'.
  assert (y = y') by lia. assert (m = m') by lia. congruence.
Qed.

Lemma string_leb_flip (a b : string) :
  String.leb a b = false -> String.leb b a = true.
Proof. intros H. destruct (String.leb_total a b); congruence. Qed.

Section Counts.
Variable median : list float -> float.
Variable quantile : list float -> float -> float.

(** X9. The sounding counts of the seasonal table add up to the number
    of soundings that have a gradient, and so do those of the monthly
    table when the months of the soundings are months of the calendar:
    grouping counts every sounding once. *)
Theorem sounding_counts_add_up (df : list Sounding) :
  total_soundings (compute_seasonal_metrics median quantile df)
  = Z.of_nat (List.length (filter has_gradient df))
  /\ (Forall (fun r => 1 <= ts_month (datetime r) <= 12) df ->
      total_soundings (compute_monthly_metrics median quantile df)
      = Z.of_nat (List.length (filter has_gradient df))).
Proof.
  split.
  - unfold total_soundings, compute_seasonal_metrics, groupby.
    rewrite !map_map. cbn [snd fst aggregate soundings].
    rewrite (Zsum_of_nat
               (fun k => List.length
                           (filter (fun x => negb (isnan x))
                              (map theta_gradient_700_925_K
                                 (filter (fun r => (season_label (datetime r)
                                                    =? k)%string) df))))).
    f_equal.
    rewrite (map_ext _ (fun k => List.length
                          (filter (fun r => (season_label (datetime r)
                                             =? k)%string)
                             (filter has_gradient df))))
      by (intros k; apply group_count).
    apply (groups_partition (fun r => season_label (datetime r)) String.eqb
             String.eqb_eq).
    + apply (group_keys_NoDup (fun r => season_label (datetime r))
               String.eqb String.leb (fun _ => True) String.eqb_eq
               string_leb_flip string_leb_trans).
      * intros a b _ _. apply String.leb_antisym.
      * apply Forall_forall. intros; exact I.
    + intros r I. apply filter_In in I.
      apply (group_keys_complete (fun r => season_label (datetime r))
               String.eqb String.leb string_eqb_true r df (proj1 I)).
  - intros V.
    unfold total_soundings, compute_monthly_metrics, groupby.
    rewrite !map_map. cbn [snd fst aggregate soundings].
    rewrite (Zsum_of_nat
               (fun k => List.length
                           (filter (fun x => negb (isnan x))
                              (map theta_gradient_700_925_K
                                 (filter (fun r => period_eqb
                                                     (to_period (datetime r)) k)
                                    df))))).
    f_equal.
    rewrite (map_ext _ (fun k => List.length
                          (filter (fun r => period_eqb
                                              (to_period (datetime r)) k)
                             (filter has_gradient df))))
      by (intros k; apply group_count).
    apply (groups_partition (fun r => to_period (datetime r)) period_eqb
             period_eqb_iff).
    + apply (group_keys_NoDup (fun r => to_period (datetime r))
               period_eqb period_leb (fun p => 1 <= p_month p <= 12)
               period_eqb_iff period_leb_total period_leb_trans
               period_leb_antisym).
      exact V.
    + intros r I. apply filter_In in I.
      apply (group_keys_complete (fun r => to_period (datetime r))
               period_eqb period_leb period_eqb_eq r df (proj1 I)).
Qed.
End Counts.

Section SortProps.
Context {A K : Type}.
Variable key : A -> K.
Variable leb : K -> K -> bool.
Hypothesis leb_total : forall a b, leb a b = false -> leb b a = true.
Hypothesis leb_trans :
  forall a b c, leb a b = true -> leb b c = true -> leb a c = true.

Let le (x y : A) : Prop := leb (key x) (key y) = true.

Lemma insert_row_perm (x : A) (l : list A) :
  Permutation (insert_row key leb x l) (x :: l).
Proof.
  induction l as [|y l IH]; simpl; [apply Permutation_refl|].
  destruct (leb (key x) (key y)); [apply Permutation_refl|].
  apply perm_trans with (y :: x :: l); [|apply perm_swap].
  apply perm_skip. exact IH.
Qed.

Lemma sort_values_perm (l : list A) : Permutation (sort_values key leb l) l.
Proof.
  induction l as [|x l IH]; simpl; [apply perm_nil|].
  apply perm_trans with (x :: sort_values key leb l);
    [apply insert_row_perm|apply perm_skip; exact IH].
Qed.

Lemma insert_row_sorted (x : A) (l : list A) :
  StronglySorted le l -> StronglySorted le (insert_row key leb x l).
Proof.
  induction l as [|y l IH]; simpl; intros S.
  - constructor; constructor.
  - inversion S as [|? ? S' F]; subst.
    destruct (leb (key x) (key y)) eqn:L.
    + constructor; [exact S|]. constructor; [exact L|].
      apply Forall_forall. intros z Hz. unfold le.
      apply (leb_trans _ (key y)); [exact L|].
      exact (proj1 (Forall_forall _ _) F z Hz).
    + constructor; [apply IH; exact S'|].
      apply Forall_forall. intros z Hz.
      apply insert_row_In in Hz. destruct Hz as [Hz|Hz].
      * subst. apply leb_total. exact L.
      * exact (proj1 (Forall_forall _ _) F z Hz).
Qed.

Lemma sort_values_sorted (l : list A) :
  StronglySorted le (sort_values key leb l).
Proof.
  induction l as [|x l IH]; simpl; [constructor|].
  apply insert_row_sorted. exact IH.
Qed.
End SortProps.

(** X10. The monthly aerosol table is ascending by month and holds the
    pairs of the join, each once (a permutation of the join); every row
    carries the text of its month, and its two halves are rows of the two
    sources for one and the same month. *)
Theorem aerosol_monthly_sorted (aod : list AodRow) (sda : list SdaRow) :
  let table := aerosol_monthly aod sda in
  StronglySorted
    (fun a b => period_leb (aod_month (fst (snd a)))
                  (aod_month (fst (snd b))) = true) table
  /\ Permutation (map snd table)
       (merge_inner aod_month sda_month period_eqb aod sda)
  /\ Forall
       (fun row =>
          fst row = period_str (aod_month (fst (snd row)))
          /\ aod_month (fst (snd row)) = sda_month (snd (snd row))
          /\ In (fst (snd row)) aod /\ In (snd (snd row)) sda)
       table.
Proof.
  intros table. unfold table, aerosol_monthly. split; [|split].
  - pose proof (sort_values_sorted
                  (fun r : AodRow * SdaRow => aod_month (fst r))
                  period_leb period_leb_total period_leb_trans
                  (merge_inner aod_month sda_month period_eqb aod sda)) as S.
    induction S as [|x l S IH F]; simpl; constructor; [exact IH|].
    apply Forall_forall. intros y Hy. apply in_map_iff in Hy.
    destruct Hy as [z [E Hz]]. subst y. simpl.
    exact (proj1 (Forall_forall _ _) F z Hz).
  - rewrite map_map. simpl. rewrite map_id. apply sort_values_perm.
  - apply Forall_forall.
    intros row I. apply in_map_iff in I. destruct I as [[a s] [E I]].
    subst row. simpl. apply sort_values_In in I.
    apply merge_inner_In in I. destruct I as [Ia [Is E]].
    apply period_eqb_eq in E. tauto.
Qed.

Section Complete.
Variable median : list float -> float.
Variable quantile : list float -> float -> float.

(** X11. A month of the calendar, January 2010 or later, that the
    soundings, the optical-depth table and the deconvolution table all
    have is in the merged table, with the two aerosol rows and with the
    metrics aggregated over the soundings of that month: the comparison
    of the month text with "2010-01" drops no month from January 2010
    on. *)
Theorem merged_complete (df : list Sounding) (aod : list AodRow)
  (sda : list SdaRow) (r : Sounding) (a : AodRow) (s : SdaRow) :
  In r df -> In a aod -> In s sda ->
  to_period (datetime r) = aod_month a ->
  aod_month a = sda_month s ->
  calendar_month (aod_month a) = true ->
  period_leb floor_month (aod_month a) = true ->
  In {| month := period_str (aod_month a);
        sounding_metrics :=
          aggregate median quantile
            (filter (fun r' => period_eqb (to_period (datetime r'))
                                 (aod_month a)) df);
        optical_depth := a;
        deconvolution := s |}
    (near_space_monthly_combo (main median quantile df aod sda)).
Proof.
  intros Ir Ia Is Era Eas Cal Late.
  assert (Floor : String.leb "2010-01" (period_str (aod_month a)) = true).
  { rewrite (period_str_floor _ Cal). exact Late. }
  unfold main. cbn [near_space_monthly_combo]. unfold merge_combo.
  apply filter_In. split; [|exact Floor].
  apply in_map_iff.
  exists ((period_str (aod_month a),
           aggregate median quantile
             (filter (fun r' => period_eqb (to_period (datetime r'))
                                  (aod_month a)) df)),
          (period_str (aod_month a), (a, s))).
  split; [reflexivity|].
  apply merge_inner_In. cbn [fst]. split; [|split].
  - unfold compute_monthly_metrics, groupby. rewrite map_map. cbn [fst snd].
    apply in_map_iff. exists (aod_month a). split; [reflexivity|].
    rewrite <- Era.
    apply (group_keys_complete (fun r => to_period (datetime r))
             period_eqb period_leb period_eqb_eq r df Ir).
  - unfold aerosol_monthly. apply in_map_iff. exists (a, s).
    split; [reflexivity|]. apply sort_values_In. apply merge_inner_In.
    split; [exact Ia|]. split; [exact Is|].
    apply period_eqb_iff. exact Eas.
  - apply String.eqb_refl.
Qed.

(** X12. When one of the three sources is empty the merged table is
    empty. *)
Theorem merged_empty_source (df : list Sounding) (aod : list AodRow)
  (sda : list SdaRow) :
  df = [] \/ aod = [] \/ sda = [] ->
  near_space_monthly_combo (main median quantile df aod sda) = [].
Proof.
  assert (E : forall (l : list (string * Metrics)),
            merge_inner fst fst String.eqb l
              ([] : list (string * (AodRow * SdaRow))) = []).
  { induction l as [|x l IH]; [reflexivity|]. exact IH. }
  intros [H|[H|H]]; subst; unfold main; cbn [near_space_monthly_combo];
    unfold merge_combo.
  - reflexivity.
  - unfold aerosol_monthly. simpl. rewrite E. reflexivity.
  - unfold aerosol_monthly.
    assert (M : merge_inner aod_month sda_month period_eqb aod [] = []).
    { induction aod as [|x l IH]; [reflexivity|]. exact IH. }
    rewrite M. simpl. rewrite E. reflexivity.
Qed.
End Complete.

(** *** Instances *)

Lemma sounding_counts_add_up_witness :
  total_soundings
    (compute_monthly_metrics (fun _ => 0%float) (fun _ _ => 0%float)
       sample_soundings) = 4.
Proof.
  apply (proj2 (sounding_counts_add_up (fun _ => 0%float)
                  (fun _ _ => 0%float) sample_soundings)).
  repeat (constructor; [simpl; lia|]). constructor.
Defined.

Lemma merged_complete_witness :
  In {| month := "2010-01";
        sounding_metrics :=
          aggregate (fun _ => 0%float) (fun _ _ => 0%float)
            [sounding_at 2010 1 5 12.5; sounding_at 2010 1 6 13];
        optical_depth := mkAodRow (mkPeriod 2010 1) 0.45 0.25 1.2 18;
        deconvolution := mkSdaRow (mkPeriod 2010 1) 0.45 0.35 0.1 0.7 |}
    (near_space_monthly_combo
       (main (fun _ => 0%float) (fun _ _ => 0%float)
          sample_soundings sample_aod sample_sda)).
Proof.
  apply (merged_complete (fun _ => 0%float) (fun _ _ => 0%float)
           sample_soundings sample_aod sample_sda
           (sounding_at 2010 1 5 12.5)
           (mkAodRow (mkPeriod 2010 1) 0.45 0.25 1.2 18)
           (mkSdaRow (mkPeriod 2010 1) 0.45 0.35 0.1 0.7));
    try reflexivity; simpl; tauto.
Defined.

Lemma merged_empty_source_witness :
  near_space_monthly_combo
    (main (fun _ => 0%float) (fun _ _ => 0%float)
       sample_soundings [] sample_sda) = [].
Proof.
  apply (merged_empty_source (fun _ => 0%float) (fun _ _ => 0%float)
           sample_soundings [] sample_sda).
  right. left. reflexivity.
Defined.

End TableProps.

(** ** Classes, episodes, correlations and the cross-table *)

Module AnalysisExtras.

Import Analysis FloatFacts PandasProps TableProps Notions.

Lemma SFleb_ltb_trans_pos (x y : spec_float) (mc : positive) (ec : Z) :
  SFleb x y = true ->
  SFltb y (S754_finite false mc ec) = true ->
  SFltb x (S754_finite false mc ec) = true.
Proof.
  unfold SFleb, SFltb.
  destruct x as [sx|sx| |sx mx ex], y as [sy|sy| |sy my ey]; simpl;
    try discriminate; try reflexivity;
    try (destruct sx; simpl; intros; try discriminate; reflexivity);
    try (destruct sy; simpl; intros; try discriminate; reflexivity);
    try (destruct sx, sy; simpl; intros; try discriminate; reflexivity).
  destruct sx; [reflexivity|]. destruct sy; [discriminate|].
  change (Pos.compare_cont Eq) with Pos.compare.
  destruct (Z.compare_spec ex ey), (Z.compare_spec ey ec),
    (Z.compare_spec ex ec); intros; try discriminate; try lia;
    try reflexivity; subst;
    destruct (Pos.compare_spec mx my), (Pos.compare_spec my mc),
      (Pos.compare_spec mx mc); try discriminate; try lia; reflexivity.
Qed.

Lemma leb_ltb_trans_pos (x y c : float) (mc : positive) (ec : Z) :
  Prim2SF c = S754_finite false mc ec ->
  PrimFloat.leb x y = true -> PrimFloat.ltb y c = true ->
  PrimFloat.ltb x c = true.
Proof.
  intros Hc. rewrite leb_spec, !ltb_spec, Hc. apply SFleb_ltb_trans_pos.
Qed.

(** X13. The dispersion class follows the stability: of two rows, the
    one with the smaller stability never gets the worse class. *)
Theorem classify_dispersion_monotone (r1 r2 : ComboRow) :
  PrimFloat.leb (c_theta_gradient_med r1) (c_theta_gradient_med r2) = true ->
  dispersion_rank (classify_dispersion r1)
  <= dispersion_rank (classify_dispersion r2).
Proof.
  intros L. unfold classify_dispersion.
  pose proof (fun c mc ec H => leb_ltb_trans_pos _ _ c mc ec H L) as T.
  destruct (PrimFloat.ltb (c_theta_gradient_med r2) 8) eqn:E8.
  { rewrite (T 8%float _ _ eq_refl E8). cbv - [Z.le]. lia. }
  destruct (PrimFloat.ltb (c_theta_gradient_med r2) 12) eqn:E12.
  { rewrite (T 12%float _ _ eq_refl E12).
    destruct (PrimFloat.ltb (c_theta_gradient_med r1) 8); cbv - [Z.le]; lia. }
  destruct (PrimFloat.ltb (c_theta_gradient_med r2) 15) eqn:E15.
  { rewrite (T 15%float _ _ eq_refl E15).
    destruct (PrimFloat.ltb (c_theta_gradient_med r1) 8);
      destruct (PrimFloat.ltb (c_theta_gradient_med r1) 12); cbv - [Z.le]; lia. }
  destruct (PrimFloat.ltb (c_theta_gradient_med r1) 8);
    destruct (PrimFloat.ltb (c_theta_gradient_med r1) 12);
    destruct (PrimFloat.ltb (c_theta_gradient_med r1) 15); cbv - [Z.le]; lia.
Qed.

(** X14. Every row of the episode table has a stability above 12 and a
    fine optical depth above 0.3, and within the table the stagnation
    flag is true exactly when the humidity is above 70. *)
Theorem episode_table_rows (combo : list ComboRow) (e : Episode) :
  In e (identify_high_pollution_episodes combo) ->
  gt (e_theta_gradient_med e) 12 = true
  /\ gt (e_Fine_Mode_AOD_500nm e) 0.3 = true
  /\ e_stagnant_conditions e = gt (e_rh_850_med e) 70.
Proof.
  unfold identify_high_pollution_episodes. intros I.
  apply in_map_iff in I. destruct I as [r [E I]]. subst e.
  apply filter_In in I. destruct I as [_ H].
  unfold high_pollution_episode, STRONG_INVERSION_THRESHOLD,
    HIGH_FINE_AOD_THRESHOLD in H.
  apply andb_true_iff in H. destruct H as [Ht Hf].
  cbn [episode_of e_theta_gradient_med e_Fine_Mode_AOD_500nm e_rh_850_med
         e_stagnant_conditions].
  split; [exact Ht|]. split; [exact Hf|].
  unfold stagnant_conditions, STRONG_INVERSION_THRESHOLD, HIGH_RH_THRESHOLD.
  rewrite Ht. reflexivity.
Qed.

Lemma filter_idempotent {A : Type} (p : A -> bool) (l : list A) :
  filter p (filter p l) = filter p l.
Proof.
  induction l as [|x l IH]; [reflexivity|]. cbn [filter].
  destruct (p x) eqn:E; [|exact IH]. cbn [filter]. rewrite E, IH.
  reflexivity.
Qed.

Lemma dropna_idempotent (combo : list ComboRow) :
  dropna (dropna combo) = dropna combo.
Proof. apply filter_idempotent. Qed.

Section Corr.
Variable pearsonr : list float -> list float -> float * float.
Variable round_to : float -> Z -> float.

(** X15. The correlations depend on the complete rows only: two tables
    with the same complete rows give the same result, cleaning a table
    beforehand changes nothing, and the result holds no pair or four
    pairs with four different names. *)
Theorem correlations_ignore_incomplete (combo combo' : list ComboRow) :
  dropna combo = dropna combo' ->
  calculate_correlations pearsonr round_to combo
  = calculate_correlations pearsonr round_to combo'
  /\ calculate_correlations pearsonr round_to (dropna combo)
     = calculate_correlations pearsonr round_to combo
  /\ (List.length (calculate_correlations pearsonr round_to combo) = 0%nat
      \/ List.length (calculate_correlations pearsonr round_to combo) = 4%nat)
  /\ NoDup (map fst (calculate_correlations pearsonr round_to combo)).
Proof.
  intros E. unfold calculate_correlations.
  rewrite dropna_idempotent, E.
  split; [reflexivity|]. split; [reflexivity|].
  destruct (2 <? Z.of_nat (List.length (dropna combo'))).
  - split; [right; reflexivity|]. simpl.
    repeat constructor; simpl; intuition discriminate.
  - split; [left; reflexivity|constructor].
Qed.
End Corr.

Lemma filter_andb {A : Type} (p q : A -> bool) (l : list A) :
  filter (fun x => p x && q x) l = filter q (filter p l).
Proof.
  induction l as [|x l IH]; [reflexivity|]. cbn [filter].
  destruct (p x); cbn [andb filter]; [destruct (q x)|]; rewrite IH;
    reflexivity.
Qed.

Lemma string_keys_NoDup {A : Type} (key : A -> string) (rows : list A) :
  NoDup (group_keys key String.eqb String.leb rows).
Proof.
  apply (group_keys_NoDup key String.eqb String.leb (fun _ => True)
           String.eqb_eq string_leb_flip AggregationProps.string_leb_trans).
  - intros a b _ _. apply String.leb_antisym.
  - apply Forall_forall. intros; exact I.
Qed.

Lemma crosstab_sum (labels : list (string * string)) :
  crosstab_total (crosstab labels) = Z.of_nat (List.length labels)
  /\ List.length (ct_counts (crosstab labels))
     = List.length (ct_index (crosstab labels))
  /\ Forall (fun row => List.length row
                        = List.length (ct_columns (crosstab labels)))
       (ct_counts (crosstab labels)).
Proof.
  unfold crosstab_total, crosstab. cbn [ct_counts ct_index ct_columns].
  split; [|split].
  - rewrite map_map.
    rewrite (map_ext _
               (fun i => Z.of_nat
                           (List.length
                              (filter (fun ic => (fst ic =? i)%string)
                                 labels)))).
    + rewrite (Zsum_of_nat
                 (fun i => List.length
                             (filter (fun ic => (fst ic =? i)%string) labels))).
      f_equal.
      apply (groups_partition fst String.eqb String.eqb_eq).
      * apply string_keys_NoDup.
      * intros r I.
        apply (group_keys_complete fst String.eqb String.leb
                 AggregationProps.string_eqb_true r labels I).
    + intros i.
      rewrite (Zsum_of_nat
                 (fun c => List.length
                             (filter (fun ic => (fst ic =? i)%string
                                                && (snd ic =? c)%string)
                                labels))).
      f_equal.
      rewrite (map_ext _
                 (fun c => List.length
                             (filter (fun ic => (snd ic =? c)%string)
                                (filter (fun ic => (fst ic =? i)%string)
                                   labels))))
        by (intros c; rewrite filter_andb; reflexivity).
      apply (groups_partition snd String.eqb String.eqb_eq).
      * apply string_keys_NoDup.
      * intros r I. apply filter_In in I.
        apply (group_keys_complete snd String.eqb String.leb
                 AggregationProps.string_eqb_true r labels (proj1 I)).
  - rewrite length_map. reflexivity.
  - apply Forall_forall. intros row I. apply in_map_iff in I.
    destruct I as [i [E _]]. subst row. rewrite length_map. reflexivity.
Qed.

Lemma season_of_month_defined (m : Z) :
  1 <= m <= 12 -> exists s, season_of_month m = Some s.
Proof.
  intros H.
  assert (E : m = 1 \/ m = 2 \/ m = 3 \/ m = 4 \/ m = 5 \/ m = 6 \/ m = 7
              \/ m = 8 \/ m = 9 \/ m = 10 \/ m = 11 \/ m = 12) by lia.
  repeat (destruct E as [E|E]; [subst; eexists; reflexivity|]).
  subst. eexists. reflexivity.
Qed.

(** X16. The cross-table of seasons and source labels counts every month
    of the merged table once: its cells add up to the number of rows;
    it has one row of counts for every season present, one count for
    every label present, and no season or label twice. *)
Theorem source_table_counts_every_month (combo : list ComboRow) :
  Forall (fun row => 1 <= ts_month (c_month row) <= 12) combo ->
  let table := aerosol_source_attribution combo in
  crosstab_total table = Z.of_nat (List.length combo)
  /\ List.length (ct_counts table) = List.length (ct_index table)
  /\ Forall (fun row => List.length row = List.length (ct_columns table))
       (ct_counts table)
  /\ NoDup (ct_index table) /\ NoDup (ct_columns table).
Proof.
  intros V table. unfold table, aerosol_source_attribution.
  destruct (crosstab_sum
              (flat_map
                 (fun row =>
                    match season_of_month (ts_month (c_month row)) with
                    | Some season => [(season, attribute_source row)]
                    | None => []
                    end) combo)) as [T [R C]].
  split; [|split; [exact R|split; [exact C|]]].
  - rewrite T. clear T R C table. f_equal.
    induction combo as [|row combo IH]; [reflexivity|].
    inversion V as [|? ? Hm Vr]; subst. cbn [flat_map].
    destruct (season_of_month_defined _ Hm) as [s E]. rewrite E.
    cbn [app List.length]. rewrite (IH Vr). reflexivity.
  - split; apply string_keys_NoDup.
Qed.

Lemma SFltb_leb_trans_pos (x y : spec_float) (mc : positive) (ec : Z) :
  SFltb (S754_finite false mc ec) x = true ->
  SFleb x y = true ->
  SFltb (S754_finite false mc ec) y = true.
Proof.
  unfold SFleb, SFltb.
  destruct x as [sx|sx| |sx mx ex], y as [sy|sy| |sy my ey]; simpl;
    try discriminate; try reflexivity;
    try (destruct sx; simpl; intros; try discriminate; reflexivity);
    try (destruct sy; simpl; intros; try discriminate; reflexivity);
    try (destruct sx, sy; simpl; intros; try discriminate; reflexivity).
  destruct sx; [discriminate|]. destruct sy; [intros; discriminate|].
  change (Pos.compare_cont Eq) with Pos.compare.
  destruct (Z.compare_spec ec ex), (Z.compare_spec ex ey),
    (Z.compare_spec ec ey); intros; try discriminate; try lia;
    try reflexivity; subst;
    destruct (Pos.compare_spec mc mx), (Pos.compare_spec mx my),
      (Pos.compare_spec mc my); try discriminate; try lia; reflexivity.
Qed.

Lemma ltb_leb_trans_pos (c x y : float) (mc : positive) (ec : Z) :
  Prim2SF c = S754_finite false mc ec ->
  PrimFloat.ltb c x = true -> PrimFloat.leb x y = true ->
  PrimFloat.ltb c y = true.
Proof.
  intros Hc. rewrite leb_spec, !ltb_spec, Hc. apply SFltb_leb_trans_pos.
Qed.

Lemma leb_not_nan (x y : float) :
  PrimFloat.leb x y = true ->
  PrimFloat.is_nan x = false /\ PrimFloat.is_nan y = false.
Proof.
  intros L. split.
  - destruct (PrimFloat.is_nan x) eqn:E; [|reflexivity].
    apply is_nan_eq in E. subst x. rewrite leb_spec in L. discriminate.
  - destruct (PrimFloat.is_nan y) eqn:E; [|reflexivity].
    apply is_nan_eq in E. subst y. rewrite leb_spec in L.
    change (Prim2SF nan) with S754_nan in L. unfold SFleb in L.
    rewrite SFcompare_nan_r in L. discriminate.
Qed.

(** X17. The source label follows the fine fraction: of two rows with
    fine fractions present, the one with the smaller fraction is never
    labelled as holding more fine particles, and neither is labelled
    "Unknown". *)
Theorem attribute_source_monotone (r1 r2 : ComboRow) :
  PrimFloat.leb (c_FineModeFraction_500nm r1) (c_FineModeFraction_500nm r2)
  = true ->
  source_rank (attribute_source r1) <= source_rank (attribute_source r2)
  /\ attribute_source r1 <> "Unknown" /\ attribute_source r2 <> "Unknown".
Proof.
  intros L. destruct (leb_not_nan _ _ L) as [N1 N2].
  unfold attribute_source, isnan, gt. rewrite N1, N2.
  pose proof (fun c mc ec H H' => ltb_leb_trans_pos c _ _ mc ec H H' L) as T.
  destruct (PrimFloat.ltb 0.6 (c_FineModeFraction_500nm r1)) eqn:E6.
  { rewrite (T 0.6%float _ _ eq_refl E6).
    repeat split; try discriminate; try (cbv - [Z.le]; lia). }
  destruct (PrimFloat.ltb 0.4 (c_FineModeFraction_500nm r1)) eqn:E4.
  { rewrite (T 0.4%float _ _ eq_refl E4).
    destruct (PrimFloat.ltb 0.6 (c_FineModeFraction_500nm r2));
      repeat split; try discriminate; try (cbv - [Z.le]; lia). }
  destruct (PrimFloat.ltb 0.6 (c_FineModeFraction_500nm r2));
    destruct (PrimFloat.ltb 0.4 (c_FineModeFraction_500nm r2));
    repeat split; try discriminate; try (cbv - [Z.le]; lia).
Qed.

(** *** Instances *)

Lemma classify_dispersion_monotone_witness :
  dispersion_rank (classify_dispersion (sample_row 9 0.2 0.1 0.6 55 0.3))
  <= dispersion_rank
       (classify_dispersion (sample_row 13 0.35 0.1 0.7 75 0.45)).
Proof.
  apply (classify_dispersion_monotone (sample_row 9 0.2 0.1 0.6 55 0.3)
           (sample_row 13 0.35 0.1 0.7 75 0.45)).
  reflexivity.
Defined.

Lemma episode_table_rows_witness :
  e_stagnant_conditions (episode_of (sample_row 13 0.35 0.1 0.7 75 0.45))
  = gt (e_rh_850_med (episode_of (sample_row 13 0.35 0.1 0.7 75 0.45))) 70.
Proof.
  apply (episode_table_rows combo_complete
           (episode_of (sample_row 13 0.35 0.1 0.7 75 0.45))).
  left. reflexivity.
Defined.

Lemma correlations_ignore_incomplete_witness :
  calculate_correlations (fun _ _ => (0.5, 0.01)%float) (fun x _ => x)
    combo_humidity_gap
  = calculate_correlations (fun _ _ => (0.5, 0.01)%float) (fun x _ => x)
      [ sample_row 9 0.2 0.1 0.6 55 0.3;
        sample_row 11 0.25 0.15 0.6 60 0.4 ].
Proof.
  apply (proj1 (correlations_ignore_incomplete
                  (fun _ _ => (0.5, 0.01)%float) (fun x _ => x)
                  combo_humidity_gap
                  [ sample_row 9 0.2 0.1 0.6 55 0.3;
                    sample_row 11 0.25 0.15 0.6 60 0.4 ]
                  eq_refl)).
Defined.

Lemma source_table_counts_every_month_witness :
  crosstab_total (aerosol_source_attribution combo_complete) = 3.
Proof.
  apply (proj1 (source_table_counts_every_month combo_complete
                  ltac:(repeat (constructor; [simpl; lia|]); constructor))).
Defined.

Lemma attribute_source_monotone_witness :
  source_rank (attribute_source (sample_row 9 0.2 0.1 0.6 55 0.3))
  <= source_rank (attribute_source (sample_row 13 0.35 0.1 0.7 75 0.45)).
Proof.
  apply (proj1 (attribute_source_monotone
                  (sample_row 9 0.2 0.1 0.6 55 0.3)
                  (sample_row 13 0.35 0.1 0.7 75 0.45) eq_refl)).
Defined.

End AnalysisExtras.

(** ** Insights and mixing metrics *)

Module InsightProps.

Import Py NearSpace Analysis Insights FloatFacts ParserExtras Notions.

Section WithText.

Variable str_float : float -> string.
Variable format_fixed : nat -> float -> string.
Variable mean : list float -> float.

Lemma episodes_length (combo : list ComboRow) :
  List.length (identify_high_pollution_episodes combo)
  = List.length
      (filter (fun row => gt (c_theta_gradient_med row) 12
                          && gt (c_Fine_Mode_AOD_500nm row) 0.3) combo).
Proof.
  unfold identify_high_pollution_episodes. rewrite length_map. reflexivity.
Qed.

Ltac insight_cases :=
  match goal with
  | |- context [negb (empty ?w) && negb (empty ?s)] =>
      destruct (negb (empty w) && negb (empty s));
      [match goal with
       | |- context [gt ?a ?b] => destruct (gt a b)
       end|]
  end;
  match goal with
  | |- context [0 <? ?n] => destruct (0 <? n)
  end;
  match goal with
  | |- context [negb (empty ?w)] => destruct (negb (empty w))
  end.

(** X18. The insight on air-quality events is present exactly when the
    episode table of [identify_high_pollution_episodes] has a row, and
    its text gives the number of rows of that table. *)
Theorem insights_count_episodes (combo : list ComboRow)
  (correlations : list (string * Correlation)) :
  let insights :=
    generate_atmospheric_insights str_float format_fixed mean combo
      correlations in
  let episodes := identify_high_pollution_episodes combo in
  (In "Air Quality Events" (map category insights) <-> episodes <> [])
  /\ Forall
       (fun i =>
          category i = "Air Quality Events" ->
          insight i
          = str_int (Z.of_nat (List.length episodes))
            ++ " months with combined high stability + aerosols")
       insights.
Proof.
  intros insights episodes.
  assert (L : List.length episodes
              = List.length
                  (filter (fun row => gt (c_theta_gradient_med row) 12
                             && gt (c_Fine_Mode_AOD_500nm row) 0.3) combo))
    by apply episodes_length.
  assert (N : episodes <> []
              <-> (0 <? Z.of_nat (List.length episodes)) = true).
  { clear L. destruct episodes as [|e l]; cbn [List.length].
    - split; [intro H; congruence | discriminate].
    - split; [intros _; reflexivity | intros _; discriminate]. }
  rewrite N. unfold insights. rewrite L. clear N L insights episodes.
  set (n := List.length (filter _ combo)).
  unfold generate_atmospheric_insights, append; cbv zeta. fold n.
  destruct (dict_get "stability_vs_fine_aod" correlations) as [corr|];
    [destruct (significance corr =? "significant")%string|];
    insight_cases;
    cbn [app map category In];
    (split;
     [split; intro H; try reflexivity; try discriminate;
      repeat (destruct H as [H|H]; try discriminate H); try tauto;
      try (right; tauto)
     |repeat (constructor; [cbn [category insight]; intro H;
                            try discriminate H; try reflexivity|]);
      constructor]).
Qed.

(** X19. The insights come in the fixed order of the four categories,
    each category at most once: there are at most four insights. *)
Theorem insights_in_order (combo : list ComboRow)
  (correlations : list (string * Correlation)) :
  let insights :=
    generate_atmospheric_insights str_float format_fixed mean combo
      correlations in
  subseq (map category insights) insight_categories = true
  /\ (List.length insights <= 4)%nat.
Proof.
  intros insights. unfold insights.
  unfold generate_atmospheric_insights, append; cbv zeta.
  destruct (dict_get "stability_vs_fine_aod" correlations) as [corr|];
    [destruct (significance corr =? "significant")%string|];
    insight_cases;
    cbn [app map category List.length]; (split; [reflexivity | lia]).
Qed.

Section WithStatistics.

Variable pearsonr : list float -> list float -> float * float.
Variable round_to : float -> Z -> float.

(** X20. With the correlations that [calculate_correlations] gives for
    the same table, the insight on atmospheric dynamics is present
    exactly when more than two rows are complete and the p-value of
    stability against fine optical depth, before rounding, is below
    0.05. *)
Theorem insights_after_correlations (combo : list ComboRow) :
  let clean := dropna combo in
  In "Atmospheric Dynamics"
    (map category
       (generate_atmospheric_insights str_float format_fixed mean combo
          (calculate_correlations pearsonr round_to combo)))
  <-> (2 < Z.of_nat (List.length clean)
       /\ PrimFloat.ltb
            (snd (pearsonr (map c_theta_gradient_med clean)
                    (map c_Fine_Mode_AOD_500nm clean))) 0.05 = true).
Proof.
  intros clean.
  unfold generate_atmospheric_insights, append; cbv zeta.
  unfold calculate_correlations; cbv zeta. fold clean.
  destruct (Z.ltb_spec 2 (Z.of_nat (List.length clean))) as [G|G].
  - cbn [dict_get String.eqb Ascii.eqb Bool.eqb]. unfold correlate.
    destruct (pearsonr (map c_theta_gradient_med clean)
                (map c_Fine_Mode_AOD_500nm clean)) as [r_ p_].
    cbn [snd significance].
    destruct (PrimFloat.ltb p_ 0.05);
      cbn [String.eqb Ascii.eqb Bool.eqb];
      insight_cases;
      cbn [app map category In];
      (split; intro H;
       [try (split; [exact G | reflexivity]);
        repeat (destruct H as [H|H]; try discriminate H); try tauto
       |try (left; reflexivity); destruct H as [_ H]; discriminate H]).
  - cbn [dict_get].
    insight_cases;
      cbn [app map category In];
      (split; intro H;
       [repeat (destruct H as [H|H]; try discriminate H); try tauto
       |lia]).
Qed.

End WithStatistics.

End WithText.

(** X21. In the mixing table a missing stability gives a missing mixing
    potential, a missing ventilation index and the class "Poor"; a
    missing humidity gives a missing ventilation index. *)
Theorem mixing_metrics_missing (combo : list ComboRow) :
  Forall
    (fun m =>
       (isnan (m_theta_gradient_med m) = true ->
        isnan (mixing_potential m) = true
        /\ isnan (ventilation_index m) = true
        /\ dispersion_potential m = "Poor")
       /\ (isnan (m_rh_850_med m) = true ->
           isnan (ventilation_index m) = true))
    (calculate_mixing_metrics combo).
Proof.
  unfold calculate_mixing_metrics. apply Forall_forall. intros m I.
  apply in_map_iff in I. destruct I as [row [E _]]. subst m.
  cbn [m_theta_gradient_med m_rh_850_med mixing_potential ventilation_index
       dispersion_potential].
  split; intros H; apply is_nan_eq in H.
  - unfold classify_dispersion. rewrite H.
    change (1 / (nan + 1))%float with nan. rewrite mul_nan_l.
    repeat split.
  - rewrite H. change (100 - nan)%float with nan. rewrite mul_nan_r.
    reflexivity.
Qed.

End InsightProps.
